(** * Orders microservice: the order lifecycle coordinator

    A shallow embedding of [OrdersService] (src/orders/orders.service.ts):
    [create], [findAll], [findOne], [changeOrderStatus] and [paidOrder],
    over an explicit model of the two collaborators it talks to, the Prisma
    order store and the NATS client used for the [validate_product] call.

    Conventions.
    - A JS [number] used in arithmetic (a price, a quantity, a total) is
      an IEEE-754 double, Stdlib's [spec_float] at precision 53 and maximal
      exponent 1024; [+] and [*] round to nearest, ties to even.  Product
      ids, pages and counts, which the code compares or counts with, are
      integers ([Z]).
    - An [async] method is a computation in the monad [M]: it threads the
      [World] (the order store and the log of messages sent on the NATS
      client) and either returns a value or throws an [exn].
    - What the outside answers is an input, the [Env]: the reply of the
      product service to a [validate_product] request and the clock read by
      [new Date()]. *)

From stdpp Require Import gmap strings list fin_maps pretty stringmap.
From Stdlib Require Import ZArith Lia.
From Stdlib Require Import Floats.SpecFloat.

(** ** Values thrown and caught *)

Inductive HttpStatus := BAD_REQUEST | NOT_FOUND.

(** What a [throw] or a rejected promise carries.  [RpcException] is the
    structured error of the service; [Error] is [new Error(msg)];
    [TypeError] is what the JS runtime raises on a property read of
    [undefined]; [Rejected] is the error a failed [client.send] rejects
    with; [PrismaError] is a failure reported by the store. *)
Inductive exn :=
| RpcException (statusCode : HttpStatus) (msg : string)
| Error (msg : string)
| TypeError (msg : string)
| Rejected (msg : string)
| PrismaError (msg : string).

(** [error.message] *)
Definition message (e : exn) : string :=
  match e with
  | RpcException _ m | Error m | TypeError m | Rejected m | PrismaError m => m
  end.

(** An error is structured when it is an [RpcException] with that code. *)
Definition is_rpc (code : HttpStatus) (e : exn) : Prop :=
  ∃ m, e = RpcException code m.

(** ** Numbers *)

(** A JS [number]: a double.  [S754_nan] is [NaN], [S754_infinity] the two
    infinities, [S754_zero] the two zeros. *)
Definition number : Type := spec_float.

(** The number literal of an integer: the double nearest to it. *)
Definition num (z : Z) : number := binary_normalize 53 1024 z 0 false.

(** [a + b] and [a * b] on numbers. *)
Definition js_add : number → number → number := SFadd 53 1024.
Definition js_mul : number → number → number := SFmul 53 1024.

(** The number of binary digits of a positive integer. *)
Definition digits (c : positive) : Z := Zpos (digits2_pos c).

(** [c * 2 ^ k] on positives, for [k] not negative. *)
Definition shl (c : positive) (k : Z) : positive :=
  match k with
  | Zpos p => Pos.iter xO c p
  | _ => c
  end.

(** The double that holds a positive integer of at most 53 digits: the
    mantissa is the integer shifted to 53 digits. *)
Definition canon (c : positive) : number :=
  S754_finite false (shl c (53 - digits c)) (digits c - 53).

(** The state of a right shift that has lost nothing. *)
Definition exact_record (m : positive) : shr_record :=
  {| shr_m := Zpos m; shr_r := false; shr_s := false |}.

(** ** Data model *)

(** Modelled from the spec: the [OrderStatus] enum of the Prisma schema,
    which is not among the sources (section 3, "status"). *)
Inductive OrderStatus := PENDING | PAID | CANCELLED | DELIVERED.

#[global] Instance OrderStatus_eq_dec : EqDecision OrderStatus.
Proof. solve_decision. Defined.

(** [`${status}`] *)
Definition status_to_string (s : OrderStatus) : string :=
  match s with
  | PENDING => "PENDING" | PAID => "PAID"
  | CANCELLED => "CANCELLED" | DELIVERED => "DELIVERED"
  end.

(** [OrderItemDto]: the client also sends a price, which [create] ignores. *)
Record OrderItemDto := {
  dto_productId : Z;
  dto_quantity : number;
  dto_price : number;
}.

Record CreateOrderDto := { items : list OrderItemDto }.

Record ChangeOrderStatusDto := {
  cs_id : string;
  cs_status : OrderStatus;
}.

Record OrderPaginationDto := {
  pg_page : Z;
  pg_limit : Z;
  pg_status : option OrderStatus;
}.

Record PaidOrderDto := {
  orderId : string;
  stripePaymentId : string;
  receiptUrl : string;
}.

(** A product record of the catalog reply. *)
Record Product := {
  p_id : Z;
  p_price : number;
  p_name : string;
}.

(** An OrderItem row as [select: {price, productId, quantity}] shows it. *)
Record OrderItem := {
  price : number;
  productId : Z;
  quantity : number;
}.

(** An OrderReceipt row, as the nested create gives it. *)
Record Receipt := { r_receiptUrl : string }.

(** Modelled from the spec: the columns of the Order table (section 3) with
    the relations it owns; the Prisma schema is not among the sources.  The
    row is stored under its id, the key of the table. *)
Record OrderRecord := {
  totalAmount : number;
  totalItems : number;
  status : OrderStatus;
  paid : bool;
  paidAt : option Z;
  stripeChargeId : option string;
  OrderItems : list OrderItem;
  OrderReceipt : option Receipt;
}.

(** The scalar fields of an order, as a store call without [include]
    returns them. *)
Record Order := {
  o_id : string;
  o_totalAmount : number;
  o_totalItems : number;
  o_status : OrderStatus;
  o_paid : bool;
  o_paidAt : option Z;
  o_stripeChargeId : option string;
}.

Definition scalars (id : string) (r : OrderRecord) : Order :=
  {| o_id := id; o_totalAmount := totalAmount r; o_totalItems := totalItems r;
     o_status := status r; o_paid := paid r; o_paidAt := paidAt r;
     o_stripeChargeId := stripeChargeId r |}.

(** An item of a response: the stored item spread, plus [name]. *)
Record NamedItem := {
  n_item : OrderItem;
  n_name : string;
}.

(** The response of [create] and [findOne]:
    [{...order, OrderItems: [...]}]. *)
Record OrderWithProducts := {
  w_order : Order;
  w_OrderItems : list NamedItem;
}.

Record Meta := {
  total : Z;
  page : Z;
  lastPage : Z;
}.

Record Page := {
  data : list Order;
  meta : Meta;
}.

(** ** The world and the monad of service calls *)

Record World := {
  orders : gmap string OrderRecord;   (* the Order table, by id *)
  sent : list (list Z);               (* payloads of validate_product, oldest first *)
}.

Record Env := {
  validate_product : list Z → exn + list Product;
  now : Z;
}.

Definition M (A : Type) : Type := World → (exn + A) * World.

#[global] Instance M_ret : MRet M := λ A a w, (inr a, w).
#[global] Instance M_bind : MBind M := λ A B f m w,
  match m w with
  | (inr a, w') => f a w'
  | (inl e, w') => (inl e, w')
  end.
#[global] Instance M_throw : MThrow exn M := λ A e w, (inl e, w).

(** [try { body } catch (error) { handler }] *)
Definition try_catch {A} (body : M A) (handler : exn → M A) : M A := λ w,
  match body w with
  | (inl e, w') => handler e w'
  | r => r
  end.

(** A synchronous computation that may throw, run inside an async method. *)
Definition lift {A} (r : exn + A) : M A := λ w, (r, w).

#[global] Instance sum_ret : MRet (sum exn) := λ A a, inr a.
#[global] Instance sum_bind : MBind (sum exn) := λ A B f m,
  match m with inr a => f a | inl e => inl e end.

(** ** The NATS client *)

(** [firstValueFrom(this.client.send('validate_product', ids))]: the request
    goes out (it is logged) and the reply, or the rejection, comes back. *)
Definition send_validate_product (env : Env) (ids : list Z) : M (list Product) :=
  λ w, (validate_product env ids, {| orders := orders w; sent := sent w ++ [ids] |}).

(** ** The order store (Prisma client) *)

(** [data] of [order.create]. *)
Record OrderCreateInput := {
  ci_totalAmount : number;
  ci_totalItems : number;
  ci_items : list OrderItem;
}.

(** [data] of [order.update]: the fields to set, and the nested create of
    the receipt. *)
Record OrderUpdateInput := {
  u_status : option OrderStatus;
  u_paid : option bool;
  u_paidAt : option Z;
  u_stripeChargeId : option string;
  u_OrderReceipt_create : option Receipt;
}.

Definition set_db (db : gmap string OrderRecord) (w : World) : World :=
  {| orders := db; sent := sent w |}.

(** Modelled from the spec: the defaults of the Order columns in the Prisma
    schema, which is not among the sources; a new order is PENDING, not
    paid, and has no payment date, charge id or receipt (section 3). *)
Definition new_record (d : OrderCreateInput) : OrderRecord :=
  {| totalAmount := ci_totalAmount d; totalItems := ci_totalItems d;
     status := PENDING; paid := false; paidAt := None;
     stripeChargeId := None; OrderItems := ci_items d;
     OrderReceipt := None |}.

(** [this.order.create({data, include: {OrderItems}})].  The id is generated
    by the store and is new.  The write is taken to succeed: a store that is
    down or refuses the row is not modelled, and what is said below of a
    [create] that returns is said under that reading. *)
Definition order_create (d : OrderCreateInput) : M (Order * list OrderItem) := λ w,
  let id := fresh_string "order" (orders w) in
  let r := new_record d in
  (inr (scalars id r, OrderItems r), set_db (<[id := r]> (orders w)) w).

(** [this.order.findUnique({where: {id}})], with or without the items: the
    caller takes what its [include] asks for. *)
Definition order_findUnique (id : string) : M (option OrderRecord) := λ w,
  (inr (orders w !! id), w).

Definition or_default {A} (o : option A) (d : A) : A :=
  match o with Some a => a | None => d end.

(** The scalar part of an update. *)
Definition apply_update (u : OrderUpdateInput) (r : OrderRecord) : OrderRecord :=
  {| totalAmount := totalAmount r; totalItems := totalItems r;
     status := or_default (u_status u) (status r);
     paid := or_default (u_paid u) (paid r);
     paidAt := match u_paidAt u with Some t => Some t | None => paidAt r end;
     stripeChargeId :=
       match u_stripeChargeId u with Some c => Some c | None => stripeChargeId r end;
     OrderItems := OrderItems r;
     OrderReceipt :=
       match u_OrderReceipt_create u with
       | Some rc => Some rc
       | None => OrderReceipt r
       end |}.

(** [this.order.update({where: {id}, data})]: one write, all of it or none.
    It throws when no row has the id.  A nested create of the receipt
    writes the receipt of the order. *)
Definition order_update (id : string) (u : OrderUpdateInput) : M Order := λ w,
  match orders w !! id with
  | None => (inl (PrismaError "Record to update not found."), w)
  | Some r =>
      let r' := apply_update u r in
      (inr (scalars id r'), set_db (<[id := r']> (orders w)) w)
  end.

(** [where: {status}]: an undefined status filters nothing. *)
Definition where_status (f : option OrderStatus) (kr : string * OrderRecord) : Prop :=
  match f with
  | None => True
  | Some s => status kr.2 = s
  end.

#[global] Instance where_status_dec f kr : Decision (where_status f kr).
Proof. destruct f; simpl; apply _. Defined.

Definition matching (f : option OrderStatus) (w : World) : list (string * OrderRecord) :=
  filter (where_status f) (map_to_list (orders w)).

(** [this.order.count({where: {status}})] *)
Definition order_count (f : option OrderStatus) : M Z := λ w,
  (inr (Z.of_nat (length (matching f w))), w).

(** [this.order.findMany({where: {status}, skip, take})]; the store refuses
    a negative [skip], and a negative [take] pages from the end. *)
Definition order_findMany (f : option OrderStatus) (skip take_ : Z) : M (list Order) := λ w,
  if bool_decide (skip < 0)%Z
  then (inl (PrismaError "Invalid value for skip argument"), w)
  else
    let rows :=
      if bool_decide (0 ≤ take_)%Z
      then take (Z.to_nat take_) (drop (Z.to_nat skip) (matching f w))
      else reverse (take (Z.to_nat (- take_)) (drop (Z.to_nat skip) (reverse (matching f w)))) in
    (inr (map (λ kr, scalars kr.1 kr.2) rows), w).

(** ** The service *)

(** [products.find((p) => p.id === item.productId)] *)
Definition find_product (products : list Product) (pid : Z) : option Product :=
  List.find (λ p, bool_decide (p_id p = pid)) products.

(** Reading a property of the result of [find]: a [TypeError] when nothing
    was found. *)
Definition prop_of {A} (field : Product → A) (field_name : string)
    (found : option Product) : exn + A :=
  match found with
  | Some p => inr (field p)
  | None =>
      inl (TypeError ("Cannot read properties of undefined (reading '"
                        +:+ field_name +:+ "')"))
  end.

(** The callback of the first [reduce] of [create]. *)
Definition add_amount (products : list Product) (acc : exn + number)
    (item : OrderItemDto) : exn + number :=
  acc ← acc;
  match find_product products (dto_productId item) with
  | None =>
      inl (Error ("Product with id " +:+ pretty (dto_productId item) +:+ " not found"))
  | Some product => inr (js_add acc (js_mul (p_price product) (dto_quantity item)))
  end.

(** [items.reduce((acc, item) => ..., 0)]: a throw in the callback ends the
    reduction. *)
Definition reduce_totalAmount (products : list Product) (its : list OrderItemDto)
    : exn + number :=
  fold_left (add_amount products) its (inr (num 0)).

Definition reduce_totalItems (its : list OrderItemDto) : number :=
  fold_left (λ acc item, js_add acc (dto_quantity item)) its (num 0).

(** The rows handed to [createMany]. *)
Definition item_row (products : list Product) (item : OrderItemDto) : exn + OrderItem :=
  pr ← prop_of p_price "price" (find_product products (dto_productId item));
  mret {| price := pr; productId := dto_productId item; quantity := dto_quantity item |}.

(** [{...item, name: products.find(...).name}] *)
Definition with_name (products : list Product) (item : OrderItem) : exn + NamedItem :=
  nm ← prop_of p_name "name" (find_product products (productId item));
  mret {| n_item := item; n_name := nm |}.

(** [array.map(f)] with a callback that may throw. *)
Fixpoint map_throwing {A B} (f : A → exn + B) (l : list A) : exn + list B :=
  match l with
  | [] => inr []
  | a :: l' => b ← f a; bs ← map_throwing f l'; mret (b :: bs)
  end.

Definition bad_request {A} (error : exn) : M A :=
  mthrow (RpcException BAD_REQUEST (message error)).

Definition create (env : Env) (createOrderDto : CreateOrderDto) : M OrderWithProducts :=
  try_catch
    (let productsIds := map dto_productId (items createOrderDto) in
     products ← send_validate_product env productsIds;
     totalAmount ← lift (reduce_totalAmount products (items createOrderDto));
     let totalItems := reduce_totalItems (items createOrderDto) in
     rows ← lift (map_throwing (item_row products) (items createOrderDto));
     order ← order_create {| ci_totalAmount := totalAmount;
                             ci_totalItems := totalItems;
                             ci_items := rows |};
     named ← lift (map_throwing (with_name products) order.2);
     mret {| w_order := order.1; w_OrderItems := named |})
    bad_request.

(** [Math.ceil(a / b)] on integers, for [b] not zero. *)
Definition ceil_div (a b : Z) : Z := (- ((- a) / b))%Z.

Definition findAll (orderPaginationDto : OrderPaginationDto) : M Page :=
  totalPages ← order_count (pg_status orderPaginationDto);
  let currentPage := pg_page orderPaginationDto in
  let perPage := pg_limit orderPaginationDto in
  rows ← order_findMany (pg_status orderPaginationDto)
           ((currentPage - 1) * perPage)%Z perPage;
  mret {| data := rows;
          meta := {| total := totalPages; page := currentPage;
                     lastPage := ceil_div totalPages perPage |} |}.

Definition not_found {A} (id : string) : M A :=
  mthrow (RpcException NOT_FOUND ("Order with id " +:+ id +:+ " not found")).

Definition findOne (env : Env) (id : string) : M OrderWithProducts :=
  order ← order_findUnique id;
  match order with
  | None => not_found id
  | Some order =>
      let productsIds := map productId (OrderItems order) in
      products ← send_validate_product env productsIds;
      named ← lift (map_throwing (with_name products) (OrderItems order));
      mret {| w_order := scalars id order; w_OrderItems := named |}
  end.

Definition changeOrderStatus (changeOrderStatusDto : ChangeOrderStatusDto) : M Order :=
  let id := cs_id changeOrderStatusDto in
  let status_ := cs_status changeOrderStatusDto in
  order ← order_findUnique id;
  match order with
  | None => not_found id
  | Some order =>
      if bool_decide (status order = status_)
      then mthrow (RpcException BAD_REQUEST
                     ("Order with id " +:+ id +:+ " already has status "
                        +:+ status_to_string status_))
      else order_update id {| u_status := Some status_; u_paid := None;
                              u_paidAt := None; u_stripeChargeId := None;
                              u_OrderReceipt_create := None |}
  end.

Definition paidOrder (env : Env) (paidOrderDto : PaidOrderDto) : M Order :=
  order_update (orderId paidOrderDto)
    {| u_status := Some PAID; u_paid := Some true; u_paidAt := Some (now env);
       u_stripeChargeId := Some (stripePaymentId paidOrderDto);
       u_OrderReceipt_create := Some {| r_receiptUrl := receiptUrl paidOrderDto |} |}.

(** ** What the specification speaks of *)

(** The price and the name the catalog reply gives for a product id: those
    of the first record with that id. *)
Definition catalog_price (products : list Product) (pid : Z) : number :=
  from_option p_price (num 0) (find_product products pid).

Definition catalog_name (products : list Product) (pid : Z) : string :=
  from_option p_name "" (find_product products pid).

(** A product id is known to the reply when some record carries it. *)
Definition known (products : list Product) (pid : Z) : Prop :=
  Exists (λ p, p_id p = pid) products.

(** Σ as the code adds: onto [acc], in the order of the list, every partial
    sum rounded to a double. *)
Fixpoint sum_from {A} (f : A → number) (acc : number) (l : list A) : number :=
  match l with
  | [] => acc
  | a :: l' => sum_from f (js_add acc (f a)) l'
  end.

Definition js_sum {A} (f : A → number) (l : list A) : number :=
  sum_from f (num 0) l.

(** Σ over a list, in exact integers. *)
Fixpoint sigma {A} (f : A → Z) (l : list A) : Z :=
  match l with
  | [] => 0
  | a :: l' => f a + sigma f l'
  end%Z.

(** The integer that a number is, when it is one. *)
Definition integer_value (x : number) : option Z :=
  match x with
  | S754_zero _ => Some 0%Z
  | S754_finite s m e =>
      if (0 <=? e)%Z then Some (cond_Zopp s (Zpos m * 2 ^ e))
      else if (Zpos m mod 2 ^ (- e) =? 0)%Z
           then Some (cond_Zopp s (Zpos m / 2 ^ (- e)))
           else None
  | S754_infinity _ | S754_nan => None
  end.

(** What an item costs: the price of the catalog times the quantity. *)
Definition amount (products : list Product) (it : OrderItemDto) : number :=
  js_mul (catalog_price products (dto_productId it)) (dto_quantity it).

(** What an item costs in exact integers, when its price and quantity are
    integers. *)
Definition exact_amount (products : list Product) (it : OrderItemDto) : option Z :=
  p ← integer_value (catalog_price products (dto_productId it));
  q ← integer_value (dto_quantity it);
  Some (p * q)%Z.

(** Section 8 on the totals, read on one run with integer prices and
    quantities: [create] returns and [totalAmount] is the exact sum of
    price times quantity. *)
Definition totals_exact (env : Env) (dto : CreateOrderDto) (w : World) : Prop :=
  ∃ o w' products amounts,
    create env dto w = (inr o, w')
    ∧ validate_product env (map dto_productId (items dto)) = inr products
    ∧ mapM (exact_amount products) (items dto) = Some amounts
    ∧ integer_value (o_totalAmount (w_order o)) = Some (sigma id amounts).

(** The product id of the first item that the reply does not know. *)
Definition first_unknown (products : list Product) (its : list OrderItemDto) : option Z :=
  head (filter (λ pid, ¬ known products pid) (map dto_productId its)).

(** The world after one [validate_product] request with payload [ids]. *)
Definition requested (ids : list Z) (w : World) : World :=
  {| orders := orders w; sent := sent w ++ [ids] |}.

(** The row [createMany] gets for an item: the catalog price, not the
    price the client sent. *)
Definition priced (products : list Product) (it : OrderItemDto) : OrderItem :=
  {| price := catalog_price products (dto_productId it);
     productId := dto_productId it; quantity := dto_quantity it |}.

Definition named (products : list Product) (it : OrderItem) : NamedItem :=
  {| n_item := it; n_name := catalog_name products (productId it) |}.

Definition undefined_name : exn :=
  TypeError "Cannot read properties of undefined (reading 'name')".

(** Section 4.1, step 1, read on one run: the ids sent are the ids of the
    items, each once. *)
Definition sends_distinct_ids (env : Env) (dto : CreateOrderDto) (w : World) : Prop :=
  ∃ ids, sent (create env dto w).2 = sent w ++ [ids]
         ∧ NoDup ids
         ∧ ∀ pid, pid ∈ ids ↔ pid ∈ map dto_productId (items dto).

Definition status_update (st : OrderStatus) : OrderUpdateInput :=
  {| u_status := Some st; u_paid := None; u_paidAt := None;
     u_stripeChargeId := None; u_OrderReceipt_create := None |}.

(** [{...o, status}] on a response. *)
Definition set_status (st : OrderStatus) (o : OrderWithProducts) : OrderWithProducts :=
  {| w_order := {| o_id := o_id (w_order o);
                   o_totalAmount := o_totalAmount (w_order o);
                   o_totalItems := o_totalItems (w_order o);
                   o_status := st;
                   o_paid := o_paid (w_order o);
                   o_paidAt := o_paidAt (w_order o);
                   o_stripeChargeId := o_stripeChargeId (w_order o) |};
     w_OrderItems := w_OrderItems o |}.

(** [data] of the one [order.update] of [paidOrder]. *)
Definition paid_update (env : Env) (dto : PaidOrderDto) : OrderUpdateInput :=
  {| u_status := Some PAID; u_paid := Some true; u_paidAt := Some (now env);
     u_stripeChargeId := Some (stripePaymentId dto);
     u_OrderReceipt_create := Some {| r_receiptUrl := receiptUrl dto |} |}.

(** The number of stored orders that match a status filter. *)
Definition count_matching (f : option OrderStatus) (w : World) : nat :=
  size (filter (where_status f) (orders w)).

(** ** Small runs *)

Definition w0 : World := {| orders := ∅; sent := [] |}.

Definition catalogAB : list Product :=
  [ {| p_id := 1; p_price := num 10; p_name := "A" |};
    {| p_id := 2; p_price := num 5; p_name := "B" |} ].

Definition envAB : Env := {| validate_product := λ _, inr catalogAB; now := 1000 |}.

(** A catalog with a price at the end of the integers a double holds one by
    one, 2^53 - 1, and an order of three units. *)
Definition catalogBig : list Product :=
  [ {| p_id := 1; p_price := num 9007199254740991; p_name := "A" |} ].

Definition envBig : Env := {| validate_product := λ _, inr catalogBig; now := 1000 |}.

Definition itemsBig : CreateOrderDto :=
  {| items := [ {| dto_productId := 1; dto_quantity := num 3; dto_price := num 0 |} ] |}.

Definition itemsAB : CreateOrderDto :=
  {| items := [ {| dto_productId := 1; dto_quantity := num 2; dto_price := num 0 |};
                {| dto_productId := 2; dto_quantity := num 1; dto_price := num 0 |} ] |}.

Definition items11 : CreateOrderDto :=
  {| items := [ {| dto_productId := 1; dto_quantity := num 2; dto_price := num 0 |};
                {| dto_productId := 1; dto_quantity := num 3; dto_price := num 0 |} ] |}.

Definition items13 : CreateOrderDto :=
  {| items := [ {| dto_productId := 1; dto_quantity := num 2; dto_price := num 0 |};
                {| dto_productId := 3; dto_quantity := num 1; dto_price := num 0 |} ] |}.

Definition envDown : Env :=
  {| validate_product := λ _, inl (Rejected "Empty response. There are no subscribers listening to that message");
     now := 1000 |}.

(** The catalog of [envAB] after both products were renamed. *)
Definition envRenamed : Env :=
  {| validate_product := λ _,
       inr [ {| p_id := 2; p_price := num 7; p_name := "B (new)" |};
             {| p_id := 1; p_price := num 12; p_name := "A (new)" |} ];
     now := 2000 |}.

(** The order of the small run, read when the catalog has lost product 2. *)
Definition envOnlyA : Env :=
  {| validate_product := λ _, inr [ {| p_id := 1; p_price := num 10; p_name := "A" |} ];
     now := 2000 |}.

Definition payment1 : PaidOrderDto :=
  {| orderId := "order"; stripePaymentId := "ch_1"; receiptUrl := "https://pay/r/1" |}.

(** The world after an order was created and its payment confirmed once. *)
Definition w_paid : World :=
  (paidOrder envAB payment1 (create envAB itemsAB w0).2).2.

(** Five orders, pages of two: three pages, and the third has one order. *)
Definition w5 : World :=
  foldr (λ _ w, (create envAB itemsAB w).2) w0 (seq 0 5).

(** ** The rest of the service *)

(** An item of the payload of [create.payment.session]. *)
Record PaymentItem := {
  pi_name : string;
  pi_price : number;
  pi_quantity : number;
}.

(** The payload of [create.payment.session]. *)
Record PaymentSessionDto := {
  ps_orderId : string;
  ps_currency : string;
  ps_items : list PaymentItem;
}.

(** [firstValueFrom(this.client.send('create.payment.session', {...}))] of
    [createPaymentSession]: the payload is built from the order handed in
    and the answer of the payment service, or its rejection, is returned as
    it comes.  The answer is an input, [gateway]; the table and the log of
    [validate_product] requests are not involved. *)
Definition createPaymentSession {Session : Type}
    (gateway : PaymentSessionDto → exn + Session) (order : OrderWithProducts)
    : M Session := λ w,
  (gateway {| ps_orderId := o_id (w_order order);
              ps_currency := "usd";
              ps_items := map (λ item, {| pi_name := n_name item;
                                          pi_price := price (n_item item);
                                          pi_quantity := quantity (n_item item) |})
                            (w_OrderItems order) |},
   w).

(** ** Runs of the service *)

(** One call of a method of the service, with any input and any answer of
    the outside (the session descriptor of the payment service is taken as
    a string). *)
Inductive step : World → World → Prop :=
| step_create env dto w : step w (create env dto w).2
| step_findAll dto w : step w (findAll dto w).2
| step_findOne env id w : step w (findOne env id w).2
| step_changeOrderStatus dto w : step w (changeOrderStatus dto w).2
| step_paidOrder env dto w : step w (paidOrder env dto w).2
| step_createPaymentSession (gateway : PaymentSessionDto → exn + string) order w :
    step w (createPaymentSession gateway order w).2.

(** The worlds the service can be in, starting from an empty table. *)
Definition reachable (w : World) : Prop := rtc step w0 w.

(** The totals of a stored order are those of its items, added as the code
    adds. *)
Definition totals_agree (r : OrderRecord) : Prop :=
  totalAmount r = js_sum (λ it, js_mul (price it) (quantity it)) (OrderItems r)
  ∧ totalItems r = js_sum quantity (OrderItems r).

(** The payment fields of a stored order go together: all set, with a
    receipt, or none. *)
Definition payment_agrees (r : OrderRecord) : Prop :=
  (paid r = true ∧ is_Some (paidAt r) ∧ is_Some (stripeChargeId r)
   ∧ is_Some (OrderReceipt r))
  ∨ (paid r = false ∧ paidAt r = None ∧ stripeChargeId r = None
     ∧ OrderReceipt r = None).

(** What one call may have written to the table: nothing, a new order whose
    totals are those of its items, a new status for a stored order, or the
    payment of a stored order. *)
Inductive written (w : World) : gmap string OrderRecord → Prop :=
| written_nothing : written w (orders w)
| written_order d :
    totals_agree (new_record d) →
    written w (<[fresh_string "order" (orders w) := new_record d]> (orders w))
| written_status id r st :
    orders w !! id = Some r →
    written w (<[id := apply_update (status_update st) r]> (orders w))
| written_payment id r env dto :
    orders w !! id = Some r →
    written w (<[id := apply_update (paid_update env dto) r]> (orders w)).

(** The orders a call of [findAll] hands back; nothing when it throws. *)
Definition page_data (f : option OrderStatus) (L p : Z) (w : World) : list Order :=
  match (findAll {| pg_page := p; pg_limit := L; pg_status := f |} w).1 with
  | inr pg => data pg
  | inl _ => []
  end.

(** A payment service that answers with the payload it was sent. *)
Definition echo_gateway : PaymentSessionDto → exn + PaymentSessionDto := inr.

(** The order of the small run, as [create] stores it, and the world it
    is stored in. *)
Definition stored_AB : OrderRecord :=
  new_record {| ci_totalAmount := num 25; ci_totalItems := num 3;
                ci_items := map (priced catalogAB) (items itemsAB) |}.

Definition w_created : World := (create envAB itemsAB w0).2.

(** The items of the small run, with the prices a client may have sent. *)
Definition itemsAB_priced : CreateOrderDto :=
  {| items := [ {| dto_productId := 1; dto_quantity := num 2; dto_price := num 99 |};
                {| dto_productId := 2; dto_quantity := num 1; dto_price := num 1 |} ] |}.

(** Products 4 and 3 are both unknown; 4 comes first. *)
Definition items143 : CreateOrderDto :=
  {| items := [ {| dto_productId := 1; dto_quantity := num 2; dto_price := num 0 |};
                {| dto_productId := 4; dto_quantity := num 1; dto_price := num 0 |};
                {| dto_productId := 3; dto_quantity := num 1; dto_price := num 0 |} ] |}.

(** ** Doubles that hold integers *)

Lemma digits_bounds c : (2 ^ (digits c - 1) ≤ Zpos c < 2 ^ digits c)%Z.
Proof.
  unfold digits. induction c as [c IH|c IH|]; simpl digits2_pos.
  - rewrite Pos2Z.inj_succ. change (Zpos c~1) with (2 * Zpos c + 1)%Z.
    replace (Z.succ (Zpos (digits2_pos c)) - 1)%Z
      with (Z.succ (Zpos (digits2_pos c) - 1))%Z by lia.
    rewrite !Z.pow_succ_r by lia.
    generalize dependent (2 ^ (Zpos (digits2_pos c) - 1))%Z.
    generalize (2 ^ Zpos (digits2_pos c))%Z. intros; lia.
  - rewrite Pos2Z.inj_succ. change (Zpos c~0) with (2 * Zpos c)%Z.
    replace (Z.succ (Zpos (digits2_pos c)) - 1)%Z
      with (Z.succ (Zpos (digits2_pos c) - 1))%Z by lia.
    rewrite !Z.pow_succ_r by lia.
    generalize dependent (2 ^ (Zpos (digits2_pos c) - 1))%Z.
    generalize (2 ^ Zpos (digits2_pos c))%Z. intros; lia.
  - split; [apply Z.leb_le | apply Z.ltb_lt]; reflexivity.
Qed.

Lemma digits_pos c : (1 ≤ digits c)%Z.
Proof. unfold digits. lia. Qed.

Lemma digits_unique c d :
  (2 ^ (d - 1) ≤ Zpos c < 2 ^ d)%Z → digits c = d.
Proof.
  intros [Hlo Hhi]. pose proof (digits_bounds c) as [Hlo' Hhi'].
  pose proof (digits_pos c).
  assert (0 < d)%Z.
  { destruct (Z.le_gt_cases d 0) as [Hd|]; [| done].
    assert (2 ^ d ≤ 2 ^ 0)%Z by (apply Z.pow_le_mono_r; lia). simpl in *. lia. }
  destruct (Z.lt_trichotomy (digits c) d) as [Hlt|[->|Hgt]]; [| done |].
  - assert (2 ^ digits c ≤ 2 ^ (d - 1))%Z by (apply Z.pow_le_mono_r; lia). lia.
  - assert (2 ^ d ≤ 2 ^ (digits c - 1))%Z by (apply Z.pow_le_mono_r; lia). lia.
Qed.

Lemma digits_le_53 c : (Zpos c < 2 ^ 53)%Z → (digits c ≤ 53)%Z.
Proof.
  intros H. pose proof (digits_bounds c) as [Hlo _].
  destruct (Z.le_gt_cases (digits c) 53) as [|Hgt]; [done |].
  assert (2 ^ 53 ≤ 2 ^ (digits c - 1))%Z by (apply Z.pow_le_mono_r; lia). lia.
Qed.

Lemma Zpos_iter_xO c p : Zpos (Pos.iter xO c p) = (Zpos c * 2 ^ Zpos p)%Z.
Proof.
  induction p as [|p IH] using Pos.peano_ind.
  - simpl. lia.
  - rewrite Pos.iter_succ, Pos2Z.inj_xO, IH, Pos2Z.inj_succ, Z.pow_succ_r by lia. lia.
Qed.

Lemma Zpos_shl c k : (0 ≤ k)%Z → Zpos (shl c k) = (Zpos c * 2 ^ k)%Z.
Proof.
  intros Hk. destruct k as [|p|p]; simpl shl.
  - simpl. lia.
  - apply Zpos_iter_xO.
  - lia.
Qed.

Lemma shl_shl c a b : (0 ≤ a)%Z → (0 ≤ b)%Z → shl (shl c a) b = shl c (a + b).
Proof.
  intros Ha Hb. apply Pos2Z.inj. rewrite !Zpos_shl by lia.
  rewrite Z.pow_add_r by lia. lia.
Qed.

Lemma digits_shl c k : (0 ≤ k)%Z → digits (shl c k) = (digits c + k)%Z.
Proof.
  intros Hk. apply digits_unique. rewrite Zpos_shl by done.
  pose proof (digits_bounds c) as [Hlo Hhi]. pose proof (digits_pos c).
  replace (digits c + k - 1)%Z with ((digits c - 1) + k)%Z by lia.
  rewrite !Z.pow_add_r by lia.
  assert (0 < 2 ^ k)%Z by (apply Z.pow_pos_nonneg; lia). nia.
Qed.

Lemma iter_pos_iter {A} (f : A → A) p x : iter_pos f p x = Pos.iter f x p.
Proof.
  revert x. induction p as [p IH|p IH|]; intros x; simpl.
  - rewrite !IH. rewrite <- !Pos.iter_swap. done.
  - rewrite !IH. done.
  - done.
Qed.

Lemma shr_exact c p :
  iter_pos shr_1 p (exact_record (Pos.iter xO c p)) = exact_record c.
Proof.
  rewrite iter_pos_iter. revert c.
  induction p as [|p IH] using Pos.peano_ind; intros c.
  - reflexivity.
  - rewrite !Pos.iter_succ.
    rewrite <- (Pos.iter_swap p positive xO c). rewrite IH. reflexivity.
Qed.

(** Shifting [shl c k] right by [n <= k] bits loses nothing. *)
Lemma shr_shl c k n e :
  (0 ≤ n ≤ k)%Z →
  shr (exact_record (shl c k)) e n = (exact_record (shl c (k - n)), (e + n)%Z).
Proof.
  intros Hn. destruct n as [|p|p]; simpl shr.
  - by rewrite Z.sub_0_r, Z.add_0_r.
  - replace (shl c k) with (Pos.iter xO (shl c (k - Zpos p)) p).
    + by rewrite shr_exact.
    + change (Pos.iter xO (shl c (k - Zpos p)) p) with (shl (shl c (k - Zpos p)) (Zpos p)).
      rewrite shl_shl by lia. f_equal. lia.
  - lia.
Qed.

Lemma fexp_digits d : (1 ≤ d)%Z → fexp 53 1024 d = (d - 53)%Z.
Proof. intros Hd. unfold fexp, emin. lia. Qed.

(** Rounding a positive integer below 2^53, held as [c * 2^k] with exponent
    [-k], gives its double. *)
Lemma round_aux_exact c k :
  (digits c ≤ 53)%Z → (53 - digits c ≤ k)%Z →
  binary_round_aux 53 1024 false (Zpos (shl c k)) (- k) loc_Exact = canon c.
Proof.
  intros Hc Hk. pose proof (digits_pos c) as Hd.
  unfold binary_round_aux, shr_fexp.
  change (Zdigits2 (Zpos (shl c k))) with (digits (shl c k)).
  rewrite digits_shl by lia.
  replace (digits c + k + - k)%Z with (digits c) by lia.
  rewrite fexp_digits by done.
  change (shr_record_of_loc (Zpos (shl c k)) loc_Exact) with (exact_record (shl c k)).
  rewrite shr_shl by lia.
  replace (k - (digits c - 53 - - k))%Z with (53 - digits c)%Z by lia.
  replace (- k + (digits c - 53 - - k))%Z with (digits c - 53)%Z by lia.
  cbn [exact_record shr_m loc_of_shr_record round_nearest_even shr_record_of_loc].
  change (Zdigits2 (Zpos (shl c (53 - digits c)))) with (digits (shl c (53 - digits c))).
  rewrite digits_shl by lia.
  replace (digits c + (53 - digits c) + (digits c - 53))%Z with (digits c) by lia.
  rewrite fexp_digits by done. rewrite Z.sub_diag. cbn [shr shr_m].
  rewrite (proj2 (Z.leb_le _ _)) by lia. reflexivity.
Qed.

Lemma round_exact c k :
  (digits c ≤ 53)%Z → (0 ≤ k)%Z →
  binary_round 53 1024 false (shl c k) (- k) = canon c.
Proof.
  intros Hc Hk. pose proof (digits_pos c) as Hd. unfold binary_round.
  change (Zpos (digits2_pos (shl c k))) with (digits (shl c k)).
  rewrite digits_shl by done.
  replace (digits c + k + - k)%Z with (digits c) by lia.
  rewrite fexp_digits by done. unfold shl_align.
  destruct (digits c - 53 - - k)%Z as [|p|p] eqn:Hshift.
  - apply round_aux_exact; lia.
  - apply round_aux_exact; lia.
  - change (Pos.iter xO (shl c k) p) with (shl (shl c k) (Zpos p)).
    rewrite shl_shl by lia.
    replace (digits c - 53)%Z with (- (k + Zpos p))%Z by lia.
    rewrite round_aux_exact by lia. done.
Qed.

Lemma num_pos c : (Zpos c < 2 ^ 53)%Z → num (Zpos c) = canon c.
Proof.
  intros Hc. apply digits_le_53 in Hc.
  exact (round_exact c 0 Hc ltac:(lia)).
Qed.

Lemma num_add_pos a b :
  (Zpos a + Zpos b < 2 ^ 53)%Z →
  js_add (num (Zpos a)) (num (Zpos b)) = num (Zpos a + Zpos b).
Proof.
  intros Hab.
  rewrite (num_pos a), (num_pos b) by lia.
  change (Zpos a + Zpos b)%Z with (Zpos (a + b)). rewrite num_pos by lia.
  pose proof (digits_le_53 a ltac:(lia)) as Ha.
  pose proof (digits_le_53 b ltac:(lia)) as Hb.
  pose proof (digits_le_53 (a + b) ltac:(lia)) as Hs.
  pose proof (digits_pos a). pose proof (digits_pos b).
  unfold js_add, canon, SFadd.
  set (ez := Z.min (digits a - 53) (digits b - 53)).
  assert (∀ c, (digits c ≤ 53)%Z → (ez ≤ digits c - 53)%Z →
               fst (shl_align (shl c (53 - digits c)) (digits c - 53) ez)
               = shl c (- ez)) as Halign.
  { intros c Hc Hez. unfold shl_align.
    destruct (ez - (digits c - 53))%Z as [|p|p] eqn:Hshift; cbn [fst].
    - f_equal. lia.
    - lia.
    - change (Pos.iter xO (shl c (53 - digits c)) p)
        with (shl (shl c (53 - digits c)) (Zpos p)).
      rewrite shl_shl by lia. f_equal. lia. }
  rewrite !Halign by (unfold ez; lia).
  cbn [cond_Zopp]. 
  replace (Zpos (shl a (- ez)) + Zpos (shl b (- ez)))%Z with (Zpos (shl (a + b) (- ez))).
  - cbn [binary_normalize].
    replace ez with (- - ez)%Z at 2 by lia.
    apply round_exact; [done | unfold ez; lia].
  - rewrite !Zpos_shl by (unfold ez; lia). lia.
Qed.

Lemma num_mul_pos a b :
  (Zpos a * Zpos b < 2 ^ 53)%Z →
  js_mul (num (Zpos a)) (num (Zpos b)) = num (Zpos a * Zpos b).
Proof.
  intros Hab.
  assert (Zpos a < 2 ^ 53)%Z by nia. assert (Zpos b < 2 ^ 53)%Z by nia.
  rewrite (num_pos a), (num_pos b) by done.
  change (Zpos a * Zpos b)%Z with (Zpos (a * b)). rewrite num_pos by lia.
  pose proof (digits_le_53 a ltac:(lia)) as Ha.
  pose proof (digits_le_53 b ltac:(lia)) as Hb.
  pose proof (digits_le_53 (a * b) ltac:(lia)) as Hs.
  pose proof (digits_pos a). pose proof (digits_pos b).
  unfold js_mul, canon, SFmul. cbn [xorb].
  replace (shl a (53 - digits a) * shl b (53 - digits b))%positive
    with (shl (a * b) (106 - digits a - digits b)).
  - replace (digits a - 53 + (digits b - 53))%Z
      with (- (106 - digits a - digits b))%Z by lia.
    apply round_aux_exact; [done |].
    (* digits (a*b) >= digits a + digits b - 1 *)
    pose proof (digits_bounds a) as [Hla _]. pose proof (digits_bounds b) as [Hlb _].
    pose proof (digits_bounds (a * b)) as [_ Hhab].
    destruct (Z.le_gt_cases (digits a + digits b - 1) (digits (a * b))) as [|Hgt]; [lia |].
    exfalso.
    assert (2 ^ digits (a * b) ≤ 2 ^ (digits a - 1 + (digits b - 1)))%Z
      by (apply Z.pow_le_mono_r; lia).
    rewrite Z.pow_add_r in * by lia.
    change (Zpos (a * b)) with (Zpos a * Zpos b)%Z in Hhab. nia.
  - apply Pos2Z.inj. rewrite Pos2Z.inj_mul, !Zpos_shl by lia.
    replace (106 - digits a - digits b)%Z
      with ((53 - digits a) + (53 - digits b))%Z by lia.
    rewrite Z.pow_add_r by lia. change (Zpos (a * b)) with (Zpos a * Zpos b)%Z. lia.
Qed.

Lemma num_add a b :
  (0 ≤ a)%Z → (0 ≤ b)%Z → (a + b < 2 ^ 53)%Z →
  js_add (num a) (num b) = num (a + b).
Proof.
  intros Ha Hb Hab. destruct a as [|a|a]; [| | lia].
  - destruct b as [|b|b]; [reflexivity | | lia].
    rewrite Z.add_0_l. rewrite (num_pos b) by lia. reflexivity.
  - destruct b as [|b|b]; [| by apply num_add_pos | lia].
    rewrite Z.add_0_r. rewrite (num_pos a) by lia. reflexivity.
Qed.

Lemma num_mul a b :
  (0 ≤ a < 2 ^ 53)%Z → (0 ≤ b < 2 ^ 53)%Z → (a * b < 2 ^ 53)%Z →
  js_mul (num a) (num b) = num (a * b).
Proof.
  intros Ha Hb Hab. destruct a as [|a|a]; [| | lia].
  - destruct b as [|b|b]; [reflexivity | | lia].
    rewrite Z.mul_0_l. rewrite (num_pos b) by lia. reflexivity.
  - destruct b as [|b|b]; [| by apply num_mul_pos | lia].
    rewrite Z.mul_0_r. rewrite (num_pos a) by lia. reflexivity.
Qed.

Lemma sigma_nonneg {A} (g : A → Z) l :
  Forall (λ a, 0 ≤ g a)%Z l → (0 ≤ sigma g l)%Z.
Proof. induction 1; simpl; lia. Qed.

Lemma sum_from_exact {A} (f : A → number) (g : A → Z) acc l :
  Forall (λ a, f a = num (g a) ∧ 0 ≤ g a)%Z l →
  (0 ≤ acc)%Z → (acc + sigma g l < 2 ^ 53)%Z →
  sum_from f (num acc) l = num (acc + sigma g l).
Proof.
  intros Hl. revert acc. induction Hl as [|a l [Hf Hg] Hl IH]; intros acc Hacc Hsum.
  - simpl. by rewrite Z.add_0_r.
  - simpl in *. pose proof (sigma_nonneg g l) as Hn.
    assert (0 ≤ sigma g l)%Z by (apply Hn; eapply Forall_impl; [exact Hl |]; by intros ? [_ ?]).
    rewrite Hf, num_add by lia. rewrite IH by lia. f_equal. lia.
Qed.

Lemma sigma_member {A} (g : A → Z) l a :
  Forall (λ a, 0 ≤ g a)%Z l → a ∈ l → (g a ≤ sigma g l)%Z.
Proof.
  induction 1 as [|b l Hb Hl IH]; intros Hin; [by apply not_elem_of_nil in Hin |].
  pose proof (sigma_nonneg g l Hl). simpl.
  apply elem_of_cons in Hin as [->|Hin]; [lia | specialize (IH Hin); lia].
Qed.

Lemma js_sum_exact {A} (f : A → number) (g : A → Z) l :
  Forall (λ a, f a = num (g a) ∧ 0 ≤ g a)%Z l →
  (sigma g l < 2 ^ 53)%Z →
  js_sum f l = num (sigma g l).
Proof.
  intros Hl Hsum. unfold js_sum. change (num 0) with (num 0%Z).
  rewrite (sum_from_exact f g 0 l Hl); [done | lia | lia].
Qed.

(** On integers below 2^53 the double holds the integer. *)
Lemma integer_value_num z :
  (0 ≤ z < 2 ^ 53)%Z → integer_value (num z) = Some z.
Proof.
  intros Hz. destruct z as [|c|c]; [reflexivity | | lia].
  rewrite num_pos by lia. pose proof (digits_le_53 c ltac:(lia)) as Hc.
  pose proof (digits_pos c) as Hd. unfold canon, integer_value.
  destruct (Z.leb_spec 0 (digits c - 53)) as [Hle|Hlt].
  - replace (digits c - 53)%Z with 0%Z by lia.
    replace (53 - digits c)%Z with 0%Z by lia. simpl. f_equal. lia.
  - rewrite Zpos_shl by lia.
    replace (- (digits c - 53))%Z with (53 - digits c)%Z by lia.
    rewrite Z.mod_mul, Z.div_mul by (apply Z.pow_nonzero; lia). done.
Qed.

(** ** Lookups in the catalog reply *)

Lemma find_product_Some products pid p :
  find_product products pid = Some p → p ∈ products ∧ p_id p = pid.
Proof.
  unfold find_product. intros H. apply find_some in H as [Hin Hb].
  split; [by apply list_elem_of_In | by apply bool_decide_eq_true in Hb].
Qed.

Lemma find_product_known products pid :
  known products pid ↔ is_Some (find_product products pid).
Proof.
  split.
  - intros (p & Hin & Hid)%Exists_exists. unfold find_product.
    destruct (List.find _ products) eqn:E; [by eexists |].
    apply list_elem_of_In in Hin.
    pose proof (find_none _ _ E p Hin) as Hn. simpl in Hn.
    apply bool_decide_eq_false in Hn. done.
  - intros [p Hp]. apply Exists_exists. exists p. by apply find_product_Some.
Qed.

Lemma find_product_unknown products pid :
  ¬ known products pid ↔ find_product products pid = None.
Proof.
  rewrite find_product_known, eq_None_not_Some. done.
Qed.

Lemma map_throwing_inr {A B} (f : A → exn + B) (g : A → B) (l : list A) :
  Forall (λ a, f a = inr (g a)) l → map_throwing f l = inr (map g l).
Proof.
  induction 1 as [|a l Ha _ IH]; simpl; [done |].
  rewrite Ha. simpl. rewrite IH. done.
Qed.

(** ** The steps of [create] *)

Lemma reduce_from_thrown products its e :
  fold_left (add_amount products) its (inl e) = inl e.
Proof. induction its as [|it its IH]; simpl; [done | apply IH]. Qed.

Lemma reduce_from products its a :
  fold_left (add_amount products) its (inr a) =
  match first_unknown products its with
  | Some pid => inl (Error ("Product with id " +:+ pretty pid +:+ " not found"))
  | None => inr (sum_from (amount products) a its)
  end.
Proof.
  revert a. induction its as [|it its IH]; intros a; simpl.
  { done. }
  unfold first_unknown. simpl. rewrite filter_cons.
  destruct (decide (¬ known products (dto_productId it))) as [Hn|Hk].
  - apply find_product_unknown in Hn. simpl. rewrite Hn.
    apply reduce_from_thrown.
  - apply dec_stable, find_product_known in Hk as [p Hp].
    rewrite Hp. rewrite IH. fold (first_unknown products its).
    destruct (first_unknown products its); [done |].
    unfold amount, catalog_price. rewrite Hp. done.
Qed.

Lemma first_unknown_None products its :
  Forall (λ it, known products (dto_productId it)) its →
  first_unknown products its = None.
Proof.
  intros H. unfold first_unknown.
  induction H as [|it its Hit _ IH]; simpl; [done |].
  rewrite filter_cons. destruct (decide _); [done | apply IH].
Qed.

Lemma first_unknown_Some products its :
  Exists (λ it, ¬ known products (dto_productId it)) its →
  ∃ pid, first_unknown products its = Some pid ∧ ¬ known products pid
         ∧ pid ∈ map dto_productId its.
Proof.
  intros H. unfold first_unknown.
  induction H as [it its Hit|it its _ IH]; simpl; rewrite filter_cons.
  - rewrite decide_True by done. exists (dto_productId it).
    split_and!; [done | done | left].
  - destruct (decide _) as [Hn|_].
    + exists (dto_productId it). split_and!; [done | done | left].
    + destruct IH as (pid & ? & ? & ?). exists pid. split_and!; [done | done | by right].
Qed.

Lemma reduce_totalItems_sum its :
  reduce_totalItems its = js_sum dto_quantity its.
Proof.
  unfold reduce_totalItems, js_sum. generalize (num 0).
  induction its as [|it its IH]; intros a; simpl; [done | apply IH].
Qed.

Lemma rows_all_known products its :
  Forall (λ it, known products (dto_productId it)) its →
  map_throwing (item_row products) its = inr (map (priced products) its).
Proof.
  intros H. apply map_throwing_inr. eapply Forall_impl; [exact H |].
  intros it [p Hp]%find_product_known. unfold item_row, priced, catalog_price.
  rewrite Hp. done.
Qed.

Lemma named_all_known products (its : list OrderItem) :
  Forall (λ it, known products (productId it)) its →
  map_throwing (with_name products) its = inr (map (named products) its).
Proof.
  intros H. apply map_throwing_inr. eapply Forall_impl; [exact H |].
  intros it [p Hp]%find_product_known. unfold with_name, named, catalog_name.
  rewrite Hp. done.
Qed.

Lemma named_some_unknown products (its : list OrderItem) :
  Exists (λ it, ¬ known products (productId it)) its →
  map_throwing (with_name products) its = inl undefined_name.
Proof.
  induction 1 as [it its Hn|it its _ IH]; simpl.
  - apply find_product_unknown in Hn. unfold with_name. rewrite Hn. done.
  - rewrite IH. destruct (with_name products it) as [e|n] eqn:E; [|reflexivity].
    unfold with_name in E.
    destruct (find_product products (productId it)); by simplify_eq/=.
Qed.

Lemma create_known env dto products w :
  validate_product env (map dto_productId (items dto)) = inr products →
  Forall (λ it, known products (dto_productId it)) (items dto) →
  let id := fresh_string "order" (orders w) in
  let r := new_record
             {| ci_totalAmount :=
                  js_sum (amount products) (items dto);
                ci_totalItems := js_sum dto_quantity (items dto);
                ci_items := map (priced products) (items dto) |} in
  create env dto w =
    (inr {| w_order := scalars id r;
            w_OrderItems := map (named products) (map (priced products) (items dto)) |},
     set_db (<[id := r]> (orders w)) (requested (map dto_productId (items dto)) w)).
Proof.
  intros Hreply Hall. simpl.
  unfold create, try_catch, mbind, M_bind, send_validate_product, lift.
  rewrite Hreply. unfold reduce_totalAmount.
  rewrite reduce_from, first_unknown_None by done.
  rewrite rows_all_known by done. rewrite reduce_totalItems_sum.
  unfold order_create. cbn [fst snd new_record OrderItems].
  rewrite named_all_known.
  2:{ apply Forall_map. eapply Forall_impl; [exact Hall |]. by intros it Hk. }
  done.
Qed.

Lemma create_unknown env dto products pid w :
  validate_product env (map dto_productId (items dto)) = inr products →
  first_unknown products (items dto) = Some pid →
  create env dto w =
    (inl (RpcException BAD_REQUEST ("Product with id " +:+ pretty pid +:+ " not found")),
     requested (map dto_productId (items dto)) w).
Proof.
  intros Hreply Hfirst.
  unfold create, try_catch, mbind, M_bind, send_validate_product, lift.
  rewrite Hreply. unfold reduce_totalAmount. rewrite reduce_from, Hfirst. done.
Qed.

Lemma create_rejection env dto e w :
  validate_product env (map dto_productId (items dto)) = inl e →
  create env dto w =
    (inl (RpcException BAD_REQUEST (message e)),
     requested (map dto_productId (items dto)) w).
Proof.
  intros Hreply.
  unfold create, try_catch, mbind, M_bind, send_validate_product, lift.
  rewrite Hreply. done.
Qed.

Lemma create_sent env dto w :
  sent (create env dto w).2 = sent w ++ [map dto_productId (items dto)].
Proof.
  destruct (validate_product env (map dto_productId (items dto)))
    as [e|products] eqn:Hreply.
  { by rewrite (create_rejection _ _ e). }
  destruct (first_unknown products (items dto)) as [pid|] eqn:Hfirst.
  { by rewrite (create_unknown _ _ products pid). }
  rewrite (create_known _ _ products); [done | done |].
  apply Forall_forall. intros it Hit. apply dec_stable. intros Hn.
  destruct (first_unknown_Some products (items dto)) as (pid & Hpid & _).
  { apply Exists_exists. eauto. }
  congruence.
Qed.

(** ** Creating an order *)

Lemma totals_exact_below_2_53 products its (p q : OrderItemDto → Z) :
  Forall (λ it, catalog_price products (dto_productId it) = num (p it)
                ∧ dto_quantity it = num (q it)
                ∧ (0 ≤ p it < 2 ^ 53)%Z ∧ (0 ≤ q it < 2 ^ 53)%Z) its →
  ((sigma (λ it, p it * q it)%Z its < 2 ^ 53)%Z →
     js_sum (amount products) its = num (sigma (λ it, p it * q it)%Z its))
  ∧ ((sigma q its < 2 ^ 53)%Z →
       js_sum dto_quantity its = num (sigma q its)).
Proof.
  intros Hits.
  assert (Forall (λ it, 0 ≤ p it * q it)%Z its) as Hnonneg.
  { eapply Forall_impl; [exact Hits |]. intros it (_ & _ & Hp & Hq). nia. }
  split; intros Hsum.
  - apply js_sum_exact; [| done]. apply Forall_forall. intros it Hit.
    pose proof (sigma_member (λ it, p it * q it)%Z its it Hnonneg Hit) as Hle.
    rewrite Forall_forall in Hits. destruct (Hits it Hit) as (Hprice & Hqty & Hp & Hq).
    simpl in Hle. split; [| nia].
    unfold amount. rewrite Hprice, Hqty. apply num_mul; [done | done | lia].
  - apply js_sum_exact; [| done]. eapply Forall_impl; [exact Hits |].
    intros it (_ & Hqty & _ & Hq). split; [done | lia].
Qed.

(** C1, as amended.  When every product id of the items is matched by a
    record of the catalog reply, [create] returns an order whose
    [totalAmount] is the sum over the items, in their order, of catalog
    price times quantity, and whose [totalItems] is the sum of the
    quantities, both as the code computes them: in double arithmetic, from
    0, every product and every partial sum rounded to the nearest double.
    The order is stored under the returned id with these totals.  When
    the prices and the quantities are integers from 0 to below 2^53 and
    the exact sum is below 2^53, no rounding occurs and the total is the
    exact sum. *)
Theorem create_totals env dto products w :
  validate_product env (map dto_productId (items dto)) = inr products →
  Forall (λ it, known products (dto_productId it)) (items dto) →
  ∃ o w' r,
    create env dto w = (inr o, w')
    ∧ o_totalAmount (w_order o) =
        js_sum (λ it, js_mul (catalog_price products (dto_productId it))
                        (dto_quantity it))
          (items dto)
    ∧ o_totalItems (w_order o) = js_sum dto_quantity (items dto)
    ∧ orders w' !! o_id (w_order o) = Some r
    ∧ totalAmount r = o_totalAmount (w_order o)
    ∧ totalItems r = o_totalItems (w_order o)
    ∧ ∀ p q : OrderItemDto → Z,
        Forall (λ it, catalog_price products (dto_productId it) = num (p it)
                      ∧ dto_quantity it = num (q it)
                      ∧ (0 ≤ p it < 2 ^ 53)%Z ∧ (0 ≤ q it < 2 ^ 53)%Z)
          (items dto) →
        ((sigma (λ it, p it * q it)%Z (items dto) < 2 ^ 53)%Z →
           o_totalAmount (w_order o)
           = num (sigma (λ it, p it * q it)%Z (items dto)))
        ∧ ((sigma q (items dto) < 2 ^ 53)%Z →
             o_totalItems (w_order o) = num (sigma q (items dto))).
Proof.
  intros Hreply Hall.
  pose proof (create_known env dto products w Hreply Hall) as Hrun.
  simpl in Hrun. eexists _, _, _. split; [exact Hrun |].
  cbn [w_order scalars o_totalAmount o_totalItems o_id new_record
       totalAmount totalItems set_db orders].
  split_and!; [done | done | apply lookup_insert_eq | done | done |].
  intros p q Hits. by apply totals_exact_below_2_53.
Qed.

(** The example of the specification: items (1 x 2), (2 x 1) against the
    catalog A = 10, B = 5 give 25 and 3. *)
Lemma create_totals_example :
  validate_product envAB (map dto_productId (items itemsAB)) = inr catalogAB
  ∧ Forall (λ it, known catalogAB (dto_productId it)) (items itemsAB)
  ∧ ∃ o w' r,
      create envAB itemsAB w0 = (inr o, w')
      ∧ o_totalAmount (w_order o) = num 25
      ∧ o_totalItems (w_order o) = num 3
      ∧ orders w' !! o_id (w_order o) = Some r
      ∧ totalAmount r = o_totalAmount (w_order o)
      ∧ totalItems r = o_totalItems (w_order o).
Proof.
  assert (Forall (λ it, known catalogAB (dto_productId it)) (items itemsAB)) as H
    by compute_done.
  split; [reflexivity |]. split; [exact H |].
  destruct (create_totals envAB itemsAB catalogAB w0 eq_refl H)
    as (o & w' & r & Hrun & Hamount & Hitems & Hr & Hra & Hri & _).
  exists o, w', r. split_and!; [exact Hrun | exact Hamount | exact Hitems
                               | exact Hr | exact Hra | exact Hri].
Defined.

(** C1, as stated, fails where a double cannot hold the sum: one item,
    3 units at the price 9007199254740991.  The product is
    27021597764222973; the doubles next to it are 4 apart, and the
    [totalAmount] of the order is 27021597764222972. *)
Lemma create_totals_rounded :
  (∃ o w', create envBig itemsBig w0 = (inr o, w')
           ∧ integer_value (o_totalAmount (w_order o)) = Some 27021597764222972%Z)
  ∧ mapM (exact_amount catalogBig) (items itemsBig) = Some [27021597764222973%Z]
  ∧ ¬ totals_exact envBig itemsBig w0.
Proof.
  assert ((create envBig itemsBig w0).1
          = inr {| w_order :=
                     scalars "order"
                       (new_record {| ci_totalAmount := num 27021597764222972;
                                      ci_totalItems := num 3;
                                      ci_items := map (priced catalogBig)
                                                    (items itemsBig) |});
                   w_OrderItems :=
                     map (named catalogBig)
                       (map (priced catalogBig) (items itemsBig)) |}) as Hcreate
    by reflexivity.
  split_and!.
  - destruct (create envBig itemsBig w0) as [res w'] eqn:Hrun. simpl in Hcreate.
    subst res. eexists _, w'. split; [reflexivity |]. reflexivity.
  - reflexivity.
  - intros (o & w' & products & amounts & Hrun & Hreply & Hamounts & Htotal).
    injection Hreply as <-.
    change (mapM (exact_amount catalogBig) (items itemsBig))
      with (Some [27021597764222973%Z]) in Hamounts.
    injection Hamounts as <-.
    rewrite Hrun in Hcreate. simpl in Hcreate. injection Hcreate as ->.
    vm_compute in Htotal. discriminate Htotal.
Qed.

(** C2.  When the catalog call fails, or its reply has no record for the
    product id of some item, [create] fails with a BAD_REQUEST error that
    carries the message of the underlying error (that of the rejection, or
    "Product with id .. not found" for an unmatched id of the input), and
    the order store is as it was. *)
Theorem create_failure env dto w :
  let ids := map dto_productId (items dto) in
  (∃ e, validate_product env ids = inl e)
  ∨ (∃ products, validate_product env ids = inr products
       ∧ Exists (λ it, ¬ known products (dto_productId it)) (items dto)) →
  ∃ m w',
    create env dto w = (inl (RpcException BAD_REQUEST m), w')
    ∧ orders w' = orders w
    ∧ (∀ e, validate_product env ids = inl e → m = message e)
    ∧ (∀ products, validate_product env ids = inr products →
         ∃ pid, pid ∈ ids ∧ ¬ known products pid
                ∧ m = "Product with id " +:+ pretty pid +:+ " not found").
Proof.
  intros ids [[e He]|(products & Hp & Hex)].
  - exists (message e), (requested ids w).
    split_and!; [by apply create_rejection | done | |].
    + intros e' He'. congruence.
    + intros products Hp. congruence.
  - destruct (first_unknown_Some _ _ Hex) as (pid & Hfirst & Hn & Hin).
    exists ("Product with id " +:+ pretty pid +:+ " not found"), (requested ids w).
    split_and!; [by eapply create_unknown | done | |].
    + intros e He. congruence.
    + intros products' Hp'. assert (products' = products) as -> by congruence.
      by exists pid.
Qed.

(** The product service is down; and product 3 is not in the catalog. *)
Lemma create_failure_examples :
  (∃ w', create envDown itemsAB w0 =
           (inl (RpcException BAD_REQUEST
                   "Empty response. There are no subscribers listening to that message"),
            w')
         ∧ orders w' = orders w0)
  ∧ (∃ m w', create envAB items13 w0 = (inl (RpcException BAD_REQUEST m), w')
             ∧ orders w' = orders w0
             ∧ ∃ pid, pid ∈ [1; 3]%Z ∧ ¬ known catalogAB pid
                      ∧ m = "Product with id " +:+ pretty pid +:+ " not found").
Proof.
  split.
  - destruct (create_failure envDown itemsAB w0) as (m & w' & H1 & H2 & H3 & _).
    { left. eexists. reflexivity. }
    exists w'. split; [| exact H2].
    rewrite (H3 _ eq_refl) in H1. exact H1.
  - destruct (create_failure envAB items13 w0) as (m & w' & H1 & H2 & _ & H4).
    { right. exists catalogAB. split; [reflexivity | compute_done]. }
    exists m, w'. split_and!; [exact H1 | exact H2 | exact (H4 catalogAB eq_refl)].
Defined.

(** C9, as amended.  [create] sends one [validate_product] request, whose
    payload is the product id of every item, in the order of the items:
    an id that two items share is sent twice. *)
Theorem create_sends_item_ids env dto w :
  ∃ ids, sent (create env dto w).2 = sent w ++ [ids]
         ∧ ids = map dto_productId (items dto)
         ∧ length ids = length (items dto)
         ∧ ∀ pid, length (filter (λ i, i = pid) ids)
                  = length (filter (λ it, dto_productId it = pid) (items dto)).
Proof.
  exists (map dto_productId (items dto)).
  split_and!; [apply create_sent | done | apply length_map |].
  intros pid. induction (items dto) as [|it its IH]; [done |].
  simpl. rewrite !filter_cons. destruct (decide _); simpl; by rewrite IH.
Qed.

(** C9, as stated, fails: for two items with product id 1 the payload is
    [1; 1], which is not a list of distinct ids. *)
Lemma create_sends_duplicate_ids :
  sent (create envAB items11 w0).2 = [[1; 1]%Z]
  ∧ ¬ sends_distinct_ids envAB items11 w0.
Proof.
  split; [reflexivity |].
  intros (ids & Hsent & Hnd & _).
  change (sent (create envAB items11 w0).2) with ([] ++ [[1; 1]%Z]) in Hsent.
  simpl in Hsent. simplify_eq.
  apply NoDup_cons in Hnd as [Hnotin _]. apply Hnotin. left.
Qed.

(** ** Reading one order *)

Lemma findOne_missing env id w :
  orders w !! id = None →
  findOne env id w =
    (inl (RpcException NOT_FOUND ("Order with id " +:+ id +:+ " not found")), w).
Proof.
  intros H. unfold findOne, mbind, M_bind, order_findUnique. rewrite H. done.
Qed.

(** C4.  For an id that no stored order has, [findOne] fails with a
    NOT_FOUND error and sends nothing to the catalog: the log of requests,
    and the whole world, are as before, whatever the catalog would have
    answered. *)
Theorem findOne_not_found env id w :
  orders w !! id = None →
  ∃ m, findOne env id w = (inl (RpcException NOT_FOUND m), w)
       ∧ sent (findOne env id w).2 = sent w
       ∧ ∀ env', findOne env' id w = findOne env id w.
Proof.
  intros H. eexists. split; [by apply findOne_missing |].
  split; [by rewrite findOne_missing |].
  intros env'. by rewrite !findOne_missing.
Qed.

Lemma findOne_not_found_example :
  ∃ m, findOne envAB "no-such-order" (create envAB itemsAB w0).2 =
         (inl (RpcException NOT_FOUND m), (create envAB itemsAB w0).2)
       ∧ sent (findOne envAB "no-such-order" (create envAB itemsAB w0).2).2 = [[1; 2]%Z].
Proof.
  destruct (findOne_not_found envAB "no-such-order" (create envAB itemsAB w0).2)
    as (m & H1 & H2 & _); [reflexivity |].
  exists m. split; [exact H1 | exact H2].
Defined.

(** *** A stored order *)

Section StoredOrder.
Context (env : Env) (id : string) (r : OrderRecord) (w : World).
Hypothesis Hstored : orders w !! id = Some r.

(** The run of [findOne]: one request to the catalog for the product ids
    of the stored items, then the enrichment of each item. *)
Lemma findOne_existing :
  findOne env id w =
    (products ← validate_product env (map productId (OrderItems r));
     named ← map_throwing (with_name products) (OrderItems r);
     mret {| w_order := scalars id r; w_OrderItems := named |},
     requested (map productId (OrderItems r)) w).
Proof.
  unfold findOne, mbind at 1, M_bind at 1, order_findUnique. rewrite Hstored.
  unfold mbind at 1, M_bind at 1, send_validate_product, requested.
  destruct (validate_product env _) as [e|products]; [done |].
  unfold mbind at 1, M_bind at 1, lift.
  simpl. destruct (map_throwing _ _); reflexivity.
Qed.

(** C8.  For a stored order and a catalog reply that knows every product
    id of its items, [findOne] returns the order with its stored items in
    order: each returned item has the stored price, quantity and product
    id, and the name that the reply of this call gives for the product id
    (that of the first record of the reply with the id), whatever the
    name was when the order was created. *)
Theorem findOne_names_from_reply products :
  validate_product env (map productId (OrderItems r)) = inr products →
  Forall (λ it, known products (productId it)) (OrderItems r) →
  ∃ o w',
    findOne env id w = (inr o, w')
    ∧ w_order o = scalars id r
    ∧ Forall2 (λ stored returned,
                 price (n_item returned) = price stored
                 ∧ quantity (n_item returned) = quantity stored
                 ∧ productId (n_item returned) = productId stored
                 ∧ ∃ p, find_product products (productId stored) = Some p
                        ∧ p ∈ products ∧ p_id p = productId stored
                        ∧ n_name returned = p_name p)
        (OrderItems r) (w_OrderItems o).
Proof.
  intros Hreply Hall. rewrite findOne_existing.
  rewrite Hreply. simpl. rewrite named_all_known by done. simpl.
  eexists _, _. split; [reflexivity |]. split; [done |]. simpl.
  apply Forall2_fmap_r, Forall_Forall2_diag.
  eapply Forall_impl; [exact Hall |].
  intros it [p Hp]%find_product_known. split_and!; [done | done | done |].
  exists p. destruct (find_product_Some _ _ _ Hp).
  unfold named, catalog_name. rewrite Hp. done.
Qed.

(** C10.  For a stored order and a catalog reply, [findOne] returns
    exactly when the reply knows every product id of the stored items.
    When some stored product id has no record in the reply, the
    enrichment reads [name] of [undefined]: [findOne] fails with the
    [TypeError] of the runtime, which is neither a NOT_FOUND nor a
    BAD_REQUEST [RpcException].  The lookup is [with_name], which the
    enrichment step of [create] runs unguarded as well. *)
Theorem findOne_unknown_product products :
  validate_product env (map productId (OrderItems r)) = inr products →
  (Exists (λ it, ¬ known products (productId it)) (OrderItems r) →
     ∃ m, (findOne env id w).1 = inl (TypeError m)
          ∧ ∀ code, ¬ is_rpc code (TypeError m))
  ∧ ((∃ o, (findOne env id w).1 = inr o)
       ↔ Forall (λ it, known products (productId it)) (OrderItems r))
  ∧ (∀ it, ¬ known products (productId it) →
       with_name products it = inl undefined_name).
Proof.
  intros Hreply. rewrite findOne_existing.
  rewrite Hreply. cbn [fst]. split_and!.
  - intros Hex. simpl. rewrite named_some_unknown by done.
    eexists. split; [reflexivity |]. by intros code [m' ?].
  - split.
    + intros [o Ho]. apply Forall_forall. intros it Hit.
      apply dec_stable. intros Hn. simpl in Ho.
      rewrite named_some_unknown in Ho; [done |].
      apply Exists_exists. eauto.
    + intros Hall. simpl. rewrite named_all_known by done. by eexists.
  - intros it Hn%find_product_unknown. unfold with_name. by rewrite Hn.
Qed.
End StoredOrder.

(** An order created under the names A and B and read after the renaming:
    the prices are those of the creation, the names those of the read. *)
Lemma findOne_names_from_reply_example :
  w_OrderItems <$> maybe inr (create envAB itemsAB w0).1 =
    Some [ {| n_item := {| price := num 10; productId := 1; quantity := num 2 |}; n_name := "A" |};
           {| n_item := {| price := num 5; productId := 2; quantity := num 1 |}; n_name := "B" |} ]
  ∧ ∃ o w',
      findOne envRenamed "order" (create envAB itemsAB w0).2 = (inr o, w')
      ∧ w_OrderItems o =
          [ {| n_item := {| price := num 10; productId := 1; quantity := num 2 |};
               n_name := "A (new)" |};
            {| n_item := {| price := num 5; productId := 2; quantity := num 1 |};
               n_name := "B (new)" |} ].
Proof.
  split; [reflexivity |].
  destruct (findOne_names_from_reply envRenamed "order"
              (new_record {| ci_totalAmount := num 25; ci_totalItems := num 3;
                             ci_items := map (priced catalogAB) (items itemsAB) |})
              (create envAB itemsAB w0).2 eq_refl
              [ {| p_id := 2; p_price := num 7; p_name := "B (new)" |};
                {| p_id := 1; p_price := num 12; p_name := "A (new)" |} ])
    as (o & w' & Hrun & _ & _); [reflexivity | compute_done |].
  exists o, w'. split; [exact Hrun |].
  change (findOne envRenamed "order" (create envAB itemsAB w0).2)
    with (inr (B:=OrderWithProducts) (A:=exn)
            {| w_order := scalars "order"
                 (new_record {| ci_totalAmount := num 25; ci_totalItems := num 3;
                                ci_items := map (priced catalogAB) (items itemsAB) |});
               w_OrderItems :=
                 [ {| n_item := {| price := num 10; productId := 1; quantity := num 2 |};
                      n_name := "A (new)" |};
                   {| n_item := {| price := num 5; productId := 2; quantity := num 1 |};
                      n_name := "B (new)" |} ] |},
          requested [1; 2]%Z (create envAB itemsAB w0).2) in Hrun.
  by injection Hrun as <- _.
Defined.

Lemma findOne_unknown_product_example :
  (findOne envOnlyA "order" (create envAB itemsAB w0).2).1 = inl undefined_name
  ∧ ¬ is_rpc NOT_FOUND undefined_name ∧ ¬ is_rpc BAD_REQUEST undefined_name.
Proof.
  destruct (findOne_unknown_product envOnlyA "order"
              (new_record {| ci_totalAmount := num 25; ci_totalItems := num 3;
                             ci_items := map (priced catalogAB) (items itemsAB) |})
              (create envAB itemsAB w0).2 eq_refl
              [ {| p_id := 1; p_price := num 10; p_name := "A" |} ])
    as (Hfail & _ & _); [reflexivity |].
  destruct Hfail as (m & Hm & Hrpc); [compute_done |].
  split; [reflexivity |].
  change (inl (B:=OrderWithProducts) undefined_name = inl (TypeError m)) in Hm.
  injection Hm as <-. split; apply Hrpc.
Defined.

(** ** Changing the status *)

Lemma changeOrderStatus_same id r w :
  orders w !! id = Some r →
  changeOrderStatus {| cs_id := id; cs_status := status r |} w =
    (inl (RpcException BAD_REQUEST
            ("Order with id " +:+ id +:+ " already has status "
               +:+ status_to_string (status r))), w).
Proof.
  intros H. unfold changeOrderStatus, mbind, M_bind, order_findUnique. simpl.
  rewrite H. rewrite bool_decide_eq_true_2 by done. done.
Qed.

Lemma changeOrderStatus_other id st r w :
  orders w !! id = Some r →
  status r ≠ st →
  changeOrderStatus {| cs_id := id; cs_status := st |} w =
    (inr (scalars id (apply_update (status_update st) r)),
     set_db (<[id := apply_update (status_update st) r]> (orders w)) w).
Proof.
  intros H Hne. unfold changeOrderStatus, mbind, M_bind, order_findUnique. simpl.
  rewrite H. rewrite bool_decide_eq_false_2 by done.
  unfold order_update. rewrite H. done.
Qed.

(** C5.  For a stored order whose status is the requested one,
    [changeOrderStatus] fails with a BAD_REQUEST error, on every such
    request, and the world, so the stored order and its status, is
    unchanged. *)
Theorem changeOrderStatus_same_status dto r w :
  orders w !! cs_id dto = Some r →
  status r = cs_status dto →
  ∃ m w',
    changeOrderStatus dto w = (inl (RpcException BAD_REQUEST m), w')
    ∧ w' = w
    ∧ orders w' !! cs_id dto = Some r
    ∧ status <$> orders w' !! cs_id dto = Some (cs_status dto).
Proof.
  intros Hr Hst. destruct dto as [id st]. simpl in *. subst st.
  eexists _, _. split; [by apply changeOrderStatus_same |].
  split; [done |]. split; [done |]. by rewrite Hr.
Qed.

Lemma changeOrderStatus_same_status_example :
  ∃ m, changeOrderStatus {| cs_id := "order"; cs_status := PENDING |}
         (create envAB itemsAB w0).2
       = (inl (RpcException BAD_REQUEST m), (create envAB itemsAB w0).2).
Proof.
  destruct (changeOrderStatus_same_status
              {| cs_id := "order"; cs_status := PENDING |}
              (new_record {| ci_totalAmount := num 25; ci_totalItems := num 3;
                             ci_items := map (priced catalogAB) (items itemsAB) |})
              (create envAB itemsAB w0).2)
    as (m & w' & Hrun & -> & _); [reflexivity | reflexivity |].
  exists m. exact Hrun.
Defined.

(** C6.  For a stored order and a requested status other than its own,
    [changeOrderStatus] stores the new status and returns the updated
    order; the totals, the payment fields, the items and the receipt of
    the stored order are as before, and so is every other order; a
    [findOne] on the id afterwards answers as before the change, with the
    new status. *)
Theorem changeOrderStatus_new_status dto r w :
  orders w !! cs_id dto = Some r →
  status r ≠ cs_status dto →
  ∃ o r' w',
    changeOrderStatus dto w = (inr o, w')
    ∧ orders w' !! cs_id dto = Some r'
    ∧ o = scalars (cs_id dto) r'
    ∧ status r' = cs_status dto
    ∧ totalAmount r' = totalAmount r ∧ totalItems r' = totalItems r
    ∧ paid r' = paid r ∧ paidAt r' = paidAt r
    ∧ stripeChargeId r' = stripeChargeId r
    ∧ OrderItems r' = OrderItems r ∧ OrderReceipt r' = OrderReceipt r
    ∧ (∀ id', id' ≠ cs_id dto → orders w' !! id' = orders w !! id')
    ∧ (∀ env, (findOne env (cs_id dto) w').1 =
              match (findOne env (cs_id dto) w).1 with
              | inr found => inr (set_status (cs_status dto) found)
              | inl e => inl e
              end).
Proof.
  intros Hr Hne. destruct dto as [id st]. simpl in *.
  eexists _, _, _. split; [by apply changeOrderStatus_other |].
  cbn [set_db orders].
  split; [apply lookup_insert_eq |].
  split_and!; try done.
  - intros id' Hid'. by apply lookup_insert_ne.
  - intros env.
    rewrite (findOne_existing _ _ (apply_update (status_update st) r))
      by apply lookup_insert_eq.
    rewrite (findOne_existing _ _ r) by done. cbn [fst apply_update OrderItems].
    destruct (validate_product env _) as [e|products]; [done |]. simpl.
    destruct (map_throwing _ _); done.
Qed.

Lemma changeOrderStatus_new_status_example :
  ∃ o w',
    changeOrderStatus {| cs_id := "order"; cs_status := DELIVERED |}
      (create envAB itemsAB w0).2 = (inr o, w')
    ∧ o = {| o_id := "order"; o_totalAmount := num 25; o_totalItems := num 3;
             o_status := DELIVERED; o_paid := false; o_paidAt := None;
             o_stripeChargeId := None |}
    ∧ o_status ∘ w_order <$> maybe inr (findOne envAB "order" w').1 = Some DELIVERED.
Proof.
  destruct (changeOrderStatus_new_status
              {| cs_id := "order"; cs_status := DELIVERED |}
              (new_record {| ci_totalAmount := num 25; ci_totalItems := num 3;
                             ci_items := map (priced catalogAB) (items itemsAB) |})
              (create envAB itemsAB w0).2)
    as (o & r' & w' & Hrun & _); [reflexivity | discriminate |].
  exists o, w'. split; [exact Hrun |].
  change (changeOrderStatus {| cs_id := "order"; cs_status := DELIVERED |}
            (create envAB itemsAB w0).2)
    with (inr (A:=exn)
            {| o_id := "order"; o_totalAmount := num 25; o_totalItems := num 3;
               o_status := DELIVERED; o_paid := false; o_paidAt := None;
               o_stripeChargeId := None |},
          (changeOrderStatus {| cs_id := "order"; cs_status := DELIVERED |}
             (create envAB itemsAB w0).2).2) in Hrun.
  injection Hrun as <- <-. split; reflexivity.
Defined.

(** ** Confirming a payment *)



(** ** Listing orders *)

Lemma length_matching f w : length (matching f w) = count_matching f w.
Proof.
  unfold matching, count_matching.
  rewrite map_filter_alt, map_size_list_to_map; [done |].
  eapply sublist_NoDup; [apply (NoDup_fst_map_to_list (orders w)) |].
  apply fmap_sublist, sublist_filter.
Qed.

Lemma ceil_div_spec n l :
  (0 < l)%Z → ((ceil_div n l - 1) * l < n ≤ ceil_div n l * l)%Z.
Proof.
  intros Hl. unfold ceil_div.
  pose proof (Z.div_mod (- n) l ltac:(lia)) as Hdm.
  pose proof (Z.mod_pos_bound (- n) l Hl) as Hb. nia.
Qed.

Lemma ceil_div_unique n l k :
  (0 < l)%Z → ((k - 1) * l < n ≤ k * l)%Z → ceil_div n l = k.
Proof.
  intros Hl Hk. pose proof (ceil_div_spec n l Hl). nia.
Qed.

Lemma findAll_run dto w :
  (1 ≤ pg_page dto)%Z → (0 ≤ pg_limit dto)%Z →
  findAll dto w =
    (inr {| data := map (λ kr, scalars kr.1 kr.2)
                      (take (Z.to_nat (pg_limit dto))
                         (drop (Z.to_nat ((pg_page dto - 1) * pg_limit dto))
                            (matching (pg_status dto) w)));
            meta := {| total := Z.of_nat (length (matching (pg_status dto) w));
                       page := pg_page dto;
                       lastPage := ceil_div (Z.of_nat (length (matching (pg_status dto) w)))
                                     (pg_limit dto) |} |}, w).
Proof.
  intros Hp Hl. unfold findAll, mbind, M_bind, order_count, order_findMany.
  rewrite bool_decide_eq_false_2 by nia.
  rewrite bool_decide_eq_true_2 by done. done.
Qed.

(** C7.  For a status filter (or none), a page p >= 1 and a page size
    L >= 1, with N the number of stored orders that match the filter,
    [findAll] returns [meta.total = N], [meta.page = p] and
    [meta.lastPage = ceil(N / L)], the integer k with (k-1) L < N <= k L,
    whatever the page; [data] is the matching orders after the first
    (p-1) L, at most L of them: min(L, N - (p-1) L) when that is not
    negative, none otherwise.  The store is not changed. *)
Theorem findAll_pagination dto w :
  (1 ≤ pg_page dto)%Z →
  (1 ≤ pg_limit dto)%Z →
  let N := Z.of_nat (count_matching (pg_status dto) w) in
  let p := pg_page dto in
  let L := pg_limit dto in
  ∃ pg,
    findAll dto w = (inr pg, w)
    ∧ total (meta pg) = N
    ∧ page (meta pg) = p
    ∧ ((lastPage (meta pg) - 1) * L < N ≤ lastPage (meta pg) * L)%Z
    ∧ (∀ k, ((k - 1) * L < N ≤ k * L)%Z → lastPage (meta pg) = k)
    ∧ (Z.of_nat (length (data pg)) ≤ L)%Z
    ∧ Z.of_nat (length (data pg)) = Z.min L (Z.max 0 (N - (p - 1) * L))
    ∧ data pg =
        map (λ kr, scalars kr.1 kr.2)
          (take (Z.to_nat L) (drop (Z.to_nat ((p - 1) * L)) (matching (pg_status dto) w))).
Proof.
  intros Hp Hl N p L. eexists. split; [apply findAll_run; lia |].
  cbn [meta data total page lastPage]. rewrite length_matching. fold N p L.
  assert (Z.of_nat (length (matching (pg_status dto) w)) = N) as Hlen
    by (by rewrite length_matching).
  split; [done |]. split; [done |].
  split; [apply ceil_div_spec; lia |].
  split; [intros k Hk; apply ceil_div_unique; [lia | done] |].
  split; [rewrite length_map, length_take; lia |].
  split; [| done].
  rewrite length_map, length_take, length_drop. nia.
Qed.

Lemma findAll_pagination_example :
  ∃ pg,
    findAll {| pg_page := 3; pg_limit := 2; pg_status := Some PENDING |} w5 = (inr pg, w5)
    ∧ total (meta pg) = 5%Z ∧ page (meta pg) = 3%Z ∧ lastPage (meta pg) = 3%Z
    ∧ length (data pg) = 1.
Proof.
  destruct (findAll_pagination
              {| pg_page := 3; pg_limit := 2; pg_status := Some PENDING |} w5)
    as (pg & Hrun & Htot & Hpage & _ & Hlast & _ & Hlen & _);
    [simpl; lia | simpl; lia |].
  exists pg. cbn [pg_status pg_limit pg_page] in *.
  assert (count_matching (Some PENDING) w5 = 5) as HN by (vm_compute; reflexivity).
  rewrite HN in *.
  split_and!; [exact Hrun | exact Htot | exact Hpage | apply Hlast; lia | lia].
Defined.


(** ** What a call writes *)

Lemma first_unknown_None_all products its :
  first_unknown products its = None →
  Forall (λ it, known products (dto_productId it)) its.
Proof.
  intros Hnone. apply Forall_forall. intros it Hit. apply dec_stable. intros Hn.
  destruct (first_unknown_Some products its) as (pid & Hpid & _).
  { apply Exists_exists. eauto. }
  congruence.
Qed.

Lemma sum_from_map {A B} (g : A → B) (f : B → number) acc (l : list A) :
  sum_from f acc (map g l) = sum_from (λ a, f (g a)) acc l.
Proof. revert acc. induction l as [|a l IH]; intros acc; simpl; [done | apply IH]. Qed.

Lemma js_sum_map {A B} (g : A → B) (f : B → number) (l : list A) :
  js_sum f (map g l) = js_sum (λ a, f (g a)) l.
Proof. apply sum_from_map. Qed.

Lemma new_order_totals_agree products its :
  totals_agree
    (new_record
       {| ci_totalAmount :=
            js_sum (amount products) its;
          ci_totalItems := js_sum dto_quantity its;
          ci_items := map (priced products) its |}).
Proof.
  unfold totals_agree. simpl. by rewrite !js_sum_map.
Qed.

(** The three ways [create] ends. *)
Lemma create_cases env dto w :
  let ids := map dto_productId (items dto) in
  (∃ e, validate_product env ids = inl e
        ∧ create env dto w = (inl (RpcException BAD_REQUEST (message e)), requested ids w))
  ∨ (∃ products pid,
       validate_product env ids = inr products
       ∧ first_unknown products (items dto) = Some pid
       ∧ create env dto w =
           (inl (RpcException BAD_REQUEST
                   ("Product with id " +:+ pretty pid +:+ " not found")),
            requested ids w))
  ∨ (∃ products,
       validate_product env ids = inr products
       ∧ Forall (λ it, known products (dto_productId it)) (items dto)
       ∧ create env dto w =
           (inr {| w_order :=
                     scalars (fresh_string "order" (orders w))
                       (new_record
                          {| ci_totalAmount :=
                               js_sum (amount products) (items dto);
                             ci_totalItems := js_sum dto_quantity (items dto);
                             ci_items := map (priced products) (items dto) |});
                   w_OrderItems :=
                     map (named products) (map (priced products) (items dto)) |},
            set_db
              (<[fresh_string "order" (orders w) :=
                   new_record
                     {| ci_totalAmount :=
                          js_sum (amount products) (items dto);
                        ci_totalItems := js_sum dto_quantity (items dto);
                        ci_items := map (priced products) (items dto) |}]> (orders w))
              (requested ids w))).
Proof.
  intros ids.
  destruct (validate_product env ids) as [e|products] eqn:Hreply.
  { left. exists e. split; [done | by apply create_rejection]. }
  right. destruct (first_unknown products (items dto)) as [pid|] eqn:Hfirst.
  { left. exists products, pid. split_and!; [done | done |].
    by apply (create_unknown env dto products pid w). }
  right. exists products. apply first_unknown_None_all in Hfirst.
  split_and!; [done | done |]. by apply (create_known env dto products w).
Qed.

Lemma findOne_orders env id w : orders (findOne env id w).2 = orders w.
Proof.
  destruct (orders w !! id) as [r|] eqn:Hr.
  - by rewrite (findOne_existing env id r w Hr).
  - by rewrite findOne_missing.
Qed.

Lemma findAll_world dto w : (findAll dto w).2 = w.
Proof.
  unfold findAll, mbind, M_bind, order_count, order_findMany.
  destruct (bool_decide _); done.
Qed.

Lemma changeOrderStatus_missing dto w :
  orders w !! cs_id dto = None →
  changeOrderStatus dto w =
    (inl (RpcException NOT_FOUND ("Order with id " +:+ cs_id dto +:+ " not found")), w).
Proof.
  intros H. unfold changeOrderStatus, mbind, M_bind, order_findUnique.
  rewrite H. done.
Qed.

Lemma paidOrder_missing env dto w :
  orders w !! orderId dto = None →
  paidOrder env dto w = (inl (PrismaError "Record to update not found."), w).
Proof. intros H. unfold paidOrder, order_update. rewrite H. done. Qed.

Lemma paidOrder_first env dto r w :
  orders w !! orderId dto = Some r →
  paidOrder env dto w =
    (inr (scalars (orderId dto) (apply_update (paid_update env dto) r)),
     set_db (<[orderId dto := apply_update (paid_update env dto) r]> (orders w)) w).
Proof. intros Hr. unfold paidOrder, order_update. rewrite Hr. done. Qed.

Lemma step_written w w' : step w w' → written w (orders w').
Proof.
  destruct 1 as [env dto w|dto w|env id w|dto w|env dto w|gateway order w];
    [| | | | | constructor].
  - destruct (create_cases env dto w)
      as [(e & _ & ->)|[(products & pid & _ & _ & ->)|(products & _ & _ & ->)]];
      cbn [snd requested set_db orders]; [constructor | constructor |].
    apply written_order. apply new_order_totals_agree.
  - rewrite findAll_world. constructor.
  - rewrite findOne_orders. constructor.
  - destruct dto as [id st].
    destruct (orders w !! id) as [r|] eqn:Hr.
    + destruct (decide (status r = st)) as [<-|Hne].
      * rewrite (changeOrderStatus_same id r w Hr). constructor.
      * rewrite (changeOrderStatus_other id st r w Hr Hne). by constructor.
    + rewrite changeOrderStatus_missing by done. constructor.
  - destruct (orders w !! orderId dto) as [r|] eqn:Hr.
    + rewrite (paidOrder_first env dto r w Hr). by constructor.
    + rewrite paidOrder_missing by done. constructor.
Qed.

(** ** What every run keeps *)

Section Invariant.
Context (P : OrderRecord → Prop).
Hypothesis P_new : ∀ d, totals_agree (new_record d) → P (new_record d).
Hypothesis P_status : ∀ st r, P r → P (apply_update (status_update st) r).
Hypothesis P_paid :
  ∀ env dto r, P r → P (apply_update (paid_update env dto) r).

Lemma written_invariant w db :
  written w db →
  map_Forall (λ _, P) (orders w) → map_Forall (λ _, P) db.
Proof.
  intros Hw Hall. destruct Hw as [|d Hd|id r st Hr|id r env dto Hr].
  - done.
  - apply map_Forall_insert_2; [by apply P_new | done].
  - apply map_Forall_insert_2; [| done]. apply P_status. by apply (Hall id).
  - apply map_Forall_insert_2; [| done]. apply P_paid. by apply (Hall id).
Qed.

Lemma reachable_invariant w :
  reachable w → map_Forall (λ _, P) (orders w).
Proof.
  unfold reachable. intros Hrun. apply rtc_nsteps in Hrun as [n Hrun].
  revert w Hrun. induction n as [|n IH]; intros w Hrun.
  - inversion Hrun; subst. apply map_Forall_empty.
  - apply nsteps_inv_r in Hrun as (wa & Hrun & Hstep).
    eapply written_invariant; [by apply step_written | by apply IH].
Qed.
End Invariant.

Lemma reachable_totals w id r :
  reachable w → orders w !! id = Some r → totals_agree r.
Proof.
  intros Hrun Hr.
  refine (reachable_invariant totals_agree _ _ _ w Hrun id r Hr).
  - done.
  - intros st r0 H. exact H.
  - intros env dto r0 H. exact H.
Qed.

Lemma written_keeps w db id r :
  written w db →
  orders w !! id = Some r →
  ∃ r', db !! id = Some r'
        ∧ OrderItems r' = OrderItems r
        ∧ totalAmount r' = totalAmount r
        ∧ totalItems r' = totalItems r.
Proof.
  intros Hw Hr. destruct Hw as [|d Hd|id' r0 st Hr0|id' r0 env dto Hr0].
  - by exists r.
  - exists r. split; [| done]. rewrite lookup_insert_ne; [done |].
    intros Heq. pose proof (fresh_string_fresh (orders w) "order") as Hfresh.
    rewrite Heq in Hfresh. congruence.
  - destruct (decide (id' = id)) as [->|Hne].
    + assert (r0 = r) as -> by congruence.
      eexists. split; [apply lookup_insert_eq | done].
    + exists r. split; [by rewrite lookup_insert_ne | done].
  - destruct (decide (id' = id)) as [->|Hne].
    + assert (r0 = r) as -> by congruence.
      eexists. split; [apply lookup_insert_eq | done].
    + exists r. split; [by rewrite lookup_insert_ne | done].
Qed.

(** X25.  The totals of every order of a reachable table are those of its
    stored items, added as [create] adds: [totalAmount] is the sum, in
    double arithmetic, from 0 and in the order of the items, of price
    times quantity, and [totalItems] the like sum of the quantities,
    whatever calls were made. *)
Theorem totals_always_agree w id r :
  reachable w →
  orders w !! id = Some r →
  totalAmount r = js_sum (λ it, js_mul (price it) (quantity it)) (OrderItems r)
  ∧ totalItems r = js_sum quantity (OrderItems r).
Proof. apply reachable_totals. Qed.

(** X26.  In every reachable table the payment fields of an order go
    together: [paid], [paidAt], the charge id and the receipt are all set
    or all unset. *)
Theorem payment_fields_always_agree w id r :
  reachable w →
  orders w !! id = Some r →
  (paid r = true ∧ is_Some (paidAt r) ∧ is_Some (stripeChargeId r)
   ∧ is_Some (OrderReceipt r))
  ∨ (paid r = false ∧ paidAt r = None ∧ stripeChargeId r = None
     ∧ OrderReceipt r = None).
Proof.
  intros Hrun Hr.
  refine (reachable_invariant payment_agrees _ _ _ w Hrun id r Hr).
  - intros d _. right. done.
  - intros st r0 H. exact H.
  - intros env dto r0 _. left. simpl. eauto.
Qed.

(** X27.  No call removes an order or touches its items or totals: an order
    stored before a run is stored after it, under the same id, with the
    same items, [totalAmount] and [totalItems]. *)
Theorem run_keeps_orders w w' id r :
  rtc step w w' →
  orders w !! id = Some r →
  ∃ r', orders w' !! id = Some r'
        ∧ OrderItems r' = OrderItems r
        ∧ totalAmount r' = totalAmount r
        ∧ totalItems r' = totalItems r.
Proof.
  intros Hrun. revert r. induction Hrun as [w|w wa w' Hstep _ IH]; intros r Hr.
  - by exists r.
  - destruct (written_keeps w (orders wa) id r (step_written _ _ Hstep) Hr)
      as (r1 & Hr1 & Hi & Ha & Ht).
    destruct (IH r1 Hr1) as (r' & Hr' & Hi' & Ha' & Ht').
    exists r'. split; [done |]. split_and!; congruence.
Qed.

Lemma w_paid_reachable : reachable w_paid.
Proof.
  apply (rtc_l _ _ (create envAB itemsAB w0).2); [apply step_create |].
  apply rtc_once. apply (step_paidOrder envAB payment1).
Qed.

Lemma totals_always_agree_example :
  totalAmount (apply_update (paid_update envAB payment1) stored_AB) = num 25
  ∧ totalItems (apply_update (paid_update envAB payment1) stored_AB) = num 3.
Proof.
  exact (totals_always_agree w_paid "order"
           (apply_update (paid_update envAB payment1) stored_AB)
           w_paid_reachable eq_refl).
Defined.

Lemma payment_fields_always_agree_example :
  paid (apply_update (paid_update envAB payment1) stored_AB) = true
  ∧ is_Some (OrderReceipt (apply_update (paid_update envAB payment1) stored_AB)).
Proof.
  destruct (payment_fields_always_agree w_paid "order"
              (apply_update (paid_update envAB payment1) stored_AB)
              w_paid_reachable eq_refl)
    as [(Hp & _ & _ & Hr)|(Hp & _)]; [by split | discriminate Hp].
Defined.

Lemma run_keeps_orders_example :
  ∃ r', orders w_paid !! "order" = Some r'
        ∧ OrderItems r' = OrderItems stored_AB
        ∧ totalAmount r' = num 25 ∧ totalItems r' = num 3.
Proof.
  apply (run_keeps_orders w_created w_paid "order" stored_AB); [| reflexivity].
  apply rtc_once. apply (step_paidOrder envAB payment1).
Defined.

(** ** More on creating an order *)

(** X1.  [create] returns an order only when the catalog replied and the
    reply knows the product id of every item; every failure of [create] is
    an [RpcException] with code BAD_REQUEST and leaves the table as it
    was. *)
Theorem create_outcomes env dto w :
  ((∃ o w', create env dto w = (inr o, w'))
     → ∃ products,
         validate_product env (map dto_productId (items dto)) = inr products
         ∧ Forall (λ it, known products (dto_productId it)) (items dto))
  ∧ (∀ e w', create env dto w = (inl e, w') →
       is_rpc BAD_REQUEST e ∧ orders w' = orders w).
Proof.
  destruct (create_cases env dto w)
    as [(e & Hreply & Hrun)|[(products & pid & Hreply & Hfirst & Hrun)
                            |(products & Hreply & Hall & Hrun)]];
    rewrite Hrun; split.
  - by intros (o & w' & ?).
  - intros e' w' [= <- <-]. split; [by eexists | done].
  - by intros (o & w' & ?).
  - intros e' w' [= <- <-]. split; [by eexists | done].
  - intros _. by exists products.
  - intros e' w' [=].
Qed.

(** X2.  A successful [create] adds exactly one order: the returned id was
    not in the table before, the table has one more order, and every order
    stored before is stored unchanged. *)
Theorem create_adds_one_order env dto products w :
  validate_product env (map dto_productId (items dto)) = inr products →
  Forall (λ it, known products (dto_productId it)) (items dto) →
  ∃ o w',
    create env dto w = (inr o, w')
    ∧ orders w !! o_id (w_order o) = None
    ∧ is_Some (orders w' !! o_id (w_order o))
    ∧ size (orders w') = S (size (orders w))
    ∧ ∀ id r, orders w !! id = Some r → orders w' !! id = Some r.
Proof.
  intros Hreply Hall.
  pose proof (create_known env dto products w Hreply Hall) as Hrun. simpl in Hrun.
  pose proof (fresh_string_fresh (orders w) "order") as Hfresh.
  eexists _, _. split; [exact Hrun |]. cbn [w_order scalars o_id set_db orders].
  split_and!.
  - done.
  - rewrite lookup_insert_eq. by eexists.
  - by apply map_size_insert_None.
  - intros id r Hr. rewrite lookup_insert_ne; [done | congruence].
Qed.

Lemma create_adds_one_order_example :
  ∃ o w',
    create envAB itemsAB w_created = (inr o, w')
    ∧ orders w_created !! o_id (w_order o) = None
    ∧ is_Some (orders w' !! o_id (w_order o))
    ∧ size (orders w') = 2
    ∧ ∀ id r, orders w_created !! id = Some r → orders w' !! id = Some r.
Proof.
  apply (create_adds_one_order envAB itemsAB catalogAB w_created); [reflexivity |].
  compute_done.
Defined.

(** X3.  The order [create] returns is PENDING and not paid, and has one
    item per item of the input, in the same order, with the product id and
    the quantity of the input and the price and the name of the first
    record of the reply with that id; the stored items are these, without
    the names.  The price the client sent is not used. *)
Theorem create_response env dto products w :
  validate_product env (map dto_productId (items dto)) = inr products →
  Forall (λ it, known products (dto_productId it)) (items dto) →
  ∃ o w' r,
    create env dto w = (inr o, w')
    ∧ orders w' !! o_id (w_order o) = Some r
    ∧ o_status (w_order o) = PENDING ∧ o_paid (w_order o) = false
    ∧ o_paidAt (w_order o) = None ∧ o_stripeChargeId (w_order o) = None
    ∧ OrderReceipt r = None
    ∧ OrderItems r = map n_item (w_OrderItems o)
    ∧ Forall2 (λ sent_item returned,
                 productId (n_item returned) = dto_productId sent_item
                 ∧ quantity (n_item returned) = dto_quantity sent_item
                 ∧ ∃ p, find_product products (dto_productId sent_item) = Some p
                        ∧ price (n_item returned) = p_price p
                        ∧ n_name returned = p_name p)
        (items dto) (w_OrderItems o).
Proof.
  intros Hreply Hall.
  pose proof (create_known env dto products w Hreply Hall) as Hrun. simpl in Hrun.
  eexists _, _, _. split; [exact Hrun |]. cbn [w_order scalars o_id set_db orders].
  split; [apply lookup_insert_eq |]. cbn.
  split_and!; try done.
  - rewrite <- list_fmap_compose. symmetry. apply list_fmap_id.
  - apply Forall2_fmap_r, Forall2_fmap_r, Forall_Forall2_diag.
    eapply Forall_impl; [exact Hall |].
    intros it [p Hp]%find_product_known. split_and!; [done | done |].
    exists p. unfold named, priced, catalog_name, catalog_price. simpl.
    rewrite Hp. done.
Qed.

Lemma create_response_example :
  ∃ o w' r,
    create envAB itemsAB_priced w0 = (inr o, w')
    ∧ orders w' !! o_id (w_order o) = Some r
    ∧ o_status (w_order o) = PENDING
    ∧ OrderItems r = [ {| price := num 10; productId := 1; quantity := num 2 |};
                       {| price := num 5; productId := 2; quantity := num 1 |} ].
Proof.
  destruct (create_response envAB itemsAB_priced catalogAB w0)
    as (o & w' & r & Hrun & Hr & Hst & _ & _ & _ & _ & Hitems & _);
    [reflexivity | compute_done |].
  exists o, w', r. split_and!; [exact Hrun | exact Hr | exact Hst |].
  rewrite Hitems.
  change (create envAB itemsAB_priced w0)
    with (inr (A:=exn)
            {| w_order := scalars "order" stored_AB;
               w_OrderItems := map (named catalogAB) (OrderItems stored_AB) |},
          (create envAB itemsAB_priced w0).2) in Hrun.
  injection Hrun as <- _. reflexivity.
Defined.

Lemma first_unknown_app products pre it post :
  Forall (λ i, known products (dto_productId i)) pre →
  ¬ known products (dto_productId it) →
  first_unknown products (pre ++ it :: post) = Some (dto_productId it).
Proof.
  intros Hpre Hit. unfold first_unknown.
  induction Hpre as [|i pre Hi _ IH]; simpl; rewrite filter_cons.
  - by rewrite decide_True.
  - rewrite decide_False by (intros Hn; by apply Hn). exact IH.
Qed.

(** X4.  When several items have a product id the reply does not know, the
    BAD_REQUEST message of [create] names the first of them in the order of
    the input. *)
Theorem create_names_first_unknown env dto products pre it post w :
  validate_product env (map dto_productId (items dto)) = inr products →
  items dto = pre ++ it :: post →
  Forall (λ i, known products (dto_productId i)) pre →
  ¬ known products (dto_productId it) →
  (create env dto w).1 =
    inl (RpcException BAD_REQUEST
           ("Product with id " +:+ pretty (dto_productId it) +:+ " not found")).
Proof.
  intros Hreply Hitems Hpre Hit.
  rewrite (create_unknown env dto products (dto_productId it) w); [done | done |].
  rewrite Hitems. by apply first_unknown_app.
Qed.

Lemma create_names_first_unknown_example :
  (create envAB items143 w0).1 =
    inl (RpcException BAD_REQUEST "Product with id 4 not found").
Proof.
  refine (create_names_first_unknown envAB items143 catalogAB
            [ {| dto_productId := 1; dto_quantity := num 2; dto_price := num 0 |} ]
            {| dto_productId := 4; dto_quantity := num 1; dto_price := num 0 |}
            [ {| dto_productId := 3; dto_quantity := num 1; dto_price := num 0 |} ]
            w0 eq_refl eq_refl _ _); compute_done.
Defined.

Lemma reduce_totalAmount_ext products its its' :
  Forall2 (λ a b, dto_productId a = dto_productId b ∧ dto_quantity a = dto_quantity b)
    its its' →
  ∀ acc, fold_left (add_amount products) its acc
         = fold_left (add_amount products) its' acc.
Proof.
  induction 1 as [|a b its its' [Hp Hq] _ IH]; intros acc; simpl; [done |].
  rewrite IH. f_equal. unfold add_amount. by rewrite Hp, Hq.
Qed.

Lemma reduce_totalItems_ext its its' :
  Forall2 (λ a b, dto_productId a = dto_productId b ∧ dto_quantity a = dto_quantity b)
    its its' →
  reduce_totalItems its = reduce_totalItems its'.
Proof.
  intros H. unfold reduce_totalItems. generalize (num 0).
  induction H as [|a b its its' [_ Hq] _ IH]; intros acc; simpl; [done |].
  by rewrite Hq, IH.
Qed.

Lemma item_rows_ext products its its' :
  Forall2 (λ a b, dto_productId a = dto_productId b ∧ dto_quantity a = dto_quantity b)
    its its' →
  map_throwing (item_row products) its = map_throwing (item_row products) its'.
Proof.
  induction 1 as [|a b its its' [Hp Hq] _ IH]; simpl; [done |].
  rewrite IH. unfold item_row. by rewrite Hp, Hq.
Qed.

(** X5.  [create] does not read the price the client sends with an item: two
    inputs whose items agree, one by one, on product id and quantity give
    the same result and the same world. *)
Theorem create_ignores_sent_prices env dto dto' w :
  Forall2 (λ a b, dto_productId a = dto_productId b ∧ dto_quantity a = dto_quantity b)
    (items dto) (items dto') →
  create env dto w = create env dto' w.
Proof.
  intros H.
  assert (map dto_productId (items dto) = map dto_productId (items dto')) as Hids.
  { induction H as [|a b its its' [Hp _] _ IH]; simpl; [done | by rewrite Hp, IH]. }
  unfold create, reduce_totalAmount.
  rewrite Hids, (reduce_totalItems_ext _ _ H).
  unfold try_catch. f_equal.
  unfold mbind, M_bind, send_validate_product.
  destruct (validate_product env _) as [e|products]; [done |].
  unfold lift. rewrite (reduce_totalAmount_ext products _ _ H).
  rewrite (item_rows_ext products _ _ H). done.
Qed.

Lemma create_ignores_sent_prices_example :
  create envAB itemsAB_priced w0 = create envAB itemsAB w0.
Proof.
  apply create_ignores_sent_prices. repeat constructor.
Defined.

Lemma sum_ones {A} (f : A → number) l acc :
  Forall (λ a, f a = num 1) l →
  (0 ≤ acc ≤ 2 ^ 53)%Z →
  sum_from f (num acc) l = num (Z.min (acc + Z.of_nat (length l)) (2 ^ 53)).
Proof.
  intros Hl. revert acc. induction Hl as [|a l Ha _ IH]; intros acc Hacc.
  - simpl. f_equal. lia.
  - cbn [sum_from length]. rewrite Ha.
    destruct (Z.lt_trichotomy (acc + 1) (2 ^ 53)) as [Hlt|[Heq|Hgt]].
    + rewrite num_add by lia. rewrite IH by lia. f_equal. lia.
    + replace acc with (2 ^ 53 - 1)%Z by lia.
      change (js_add (num (2 ^ 53 - 1)) (num 1)) with (num (2 ^ 53)).
      rewrite IH by lia. f_equal. lia.
    + replace acc with (2 ^ 53)%Z by lia.
      change (js_add (num (2 ^ 53)) (num 1)) with (num (2 ^ 53)).
      rewrite IH by lia. f_equal. lia.
Qed.

(** Beyond 2^53 the count of units stops: an order of 2^53 or more items of
    one unit each has [totalItems] 2^53, whatever their number. *)
Lemma create_totalItems_saturates env dto products w :
  validate_product env (map dto_productId (items dto)) = inr products →
  Forall (λ it, known products (dto_productId it)) (items dto) →
  Forall (λ it, dto_quantity it = num 1) (items dto) →
  (2 ^ 53 ≤ Z.of_nat (length (items dto)))%Z →
  ∃ o w',
    create env dto w = (inr o, w')
    ∧ integer_value (o_totalItems (w_order o)) = Some (2 ^ 53)%Z.
Proof.
  intros Hreply Hall Hones Hlen.
  pose proof (create_known env dto products w Hreply Hall) as Hrun. simpl in Hrun.
  eexists _, _. split; [exact Hrun |].
  cbn [w_order scalars o_totalItems new_record totalItems].
  unfold js_sum. change (num 0) with (num 0%Z).
  rewrite (sum_ones dto_quantity (items dto) 0 Hones) by lia.
  rewrite Z.min_r by lia. reflexivity.
Qed.

(** X6.  For items whose quantities pass the validators of [OrderItemDto]
    (positive integers) and whose product ids are all known to the reply,
    when the exact sum of the quantities is below 2^53 the [totalItems] of
    the order [create] returns is that sum, which counts at least one unit
    per item; if moreover the prices of the reply are positive integers,
    the input is not empty and the exact sum of price times quantity is
    below 2^53, [totalAmount] is that sum and is positive.  (From 2^53 on
    the sums are rounded: see [create_totalItems_saturates].) *)
Theorem create_validated_totals env dto products w (q : OrderItemDto → Z) :
  validate_product env (map dto_productId (items dto)) = inr products →
  Forall (λ it, known products (dto_productId it)) (items dto) →
  Forall (λ it, dto_quantity it = num (q it) ∧ (1 ≤ q it)%Z) (items dto) →
  (sigma q (items dto) < 2 ^ 53)%Z →
  ∃ o w',
    create env dto w = (inr o, w')
    ∧ integer_value (o_totalItems (w_order o)) = Some (sigma q (items dto))
    ∧ (Z.of_nat (length (items dto)) ≤ sigma q (items dto))%Z
    ∧ ∀ p : OrderItemDto → Z,
        Forall (λ it, catalog_price products (dto_productId it) = num (p it)
                      ∧ (1 ≤ p it)%Z) (items dto) →
        (sigma (λ it, p it * q it)%Z (items dto) < 2 ^ 53)%Z →
        items dto ≠ [] →
        integer_value (o_totalAmount (w_order o))
        = Some (sigma (λ it, p it * q it)%Z (items dto))
        ∧ (0 < sigma (λ it, p it * q it)%Z (items dto))%Z.
Proof.
  intros Hreply Hall Hq Hsum.
  pose proof (create_known env dto products w Hreply Hall) as Hrun. simpl in Hrun.
  eexists _, _. split; [exact Hrun |].
  cbn [w_order scalars o_totalItems o_totalAmount new_record totalItems totalAmount].
  assert (Forall (λ it, 0 ≤ q it)%Z (items dto)) as Hq0.
  { eapply Forall_impl; [exact Hq |]. intros it [_ ?]. lia. }
  pose proof (sigma_nonneg q (items dto) Hq0) as Hsum0.
  split_and!.
  - rewrite (js_sum_exact dto_quantity q); [by apply integer_value_num | | done].
    eapply Forall_impl; [exact Hq |]. intros it [? ?]. split; [done | lia].
  - clear Hrun Hsum Hq0 Hsum0 Hall Hreply.
    induction Hq as [|it its [_ Hit] _ IH]; simpl; [lia |]. lia.
  - intros p Hp Hpq Hne.
    assert (Forall (λ it, 1 ≤ p it * q it)%Z (items dto)) as Hpq1.
    { apply Forall_forall. intros it Hit.
      rewrite Forall_forall in Hq. rewrite Forall_forall in Hp.
      destruct (Hq it Hit) as [_ ?]. destruct (Hp it Hit) as [_ ?]. nia. }
    assert (Forall (λ it, 0 ≤ p it * q it)%Z (items dto)) as Hpq0.
    { eapply Forall_impl; [exact Hpq1 |]. intros it ?. simpl in *. lia. }
    pose proof (sigma_nonneg (λ it, p it * q it)%Z (items dto) Hpq0) as Hpqsum0.
    assert (0 < sigma (λ it, p it * q it)%Z (items dto))%Z as Hpos.
    { destruct Hpq1 as [|it its Hit Hits]; [done |]. simpl.
      assert (0 ≤ sigma (λ it, p it * q it)%Z its)%Z; [| lia].
      apply sigma_nonneg. eapply Forall_impl; [exact Hits |]. intros ? ?. simpl in *. lia. }
    split; [| done].
    destruct (totals_exact_below_2_53 products (items dto) p q) as [Hamount _].
    { apply Forall_forall. intros it Hit.
      pose proof (sigma_member (λ it, p it * q it)%Z _ it Hpq0 Hit) as Hle. simpl in Hle.
      rewrite Forall_forall in Hq. rewrite Forall_forall in Hp.
      destruct (Hq it Hit) as [? ?]. destruct (Hp it Hit) as [? ?].
      split_and!; [done | done | lia | nia | lia | nia]. }
    rewrite Hamount by done. apply integer_value_num. lia.
Qed.

Lemma create_validated_totals_example :
  ∃ o w',
    create envAB itemsAB_priced w0 = (inr o, w')
    ∧ integer_value (o_totalItems (w_order o)) = Some 3%Z
    ∧ integer_value (o_totalAmount (w_order o)) = Some 25%Z.
Proof.
  assert (Forall (λ it, known catalogAB (dto_productId it)) (items itemsAB_priced))
    as Hall by compute_done.
  assert (Forall (λ it, dto_quantity it
                        = num (if decide (dto_productId it = 1%Z) then 2 else 1)
                        ∧ (1 ≤ if decide (dto_productId it = 1%Z) then 2 else 1)%Z)
            (items itemsAB_priced)) as Hq.
  { repeat constructor; simpl; lia. }
  destruct (create_validated_totals envAB itemsAB_priced catalogAB w0
              (λ it, if decide (dto_productId it = 1%Z) then 2%Z else 1%Z)
              eq_refl Hall Hq eq_refl)
    as (o & w' & Hrun & Hitems & _ & Hamount).
  exists o, w'. split_and!; [exact Hrun | exact Hitems |].
  assert (Forall (λ it, catalog_price catalogAB (dto_productId it)
                        = num (if decide (dto_productId it = 1%Z) then 10 else 5)
                        ∧ (1 ≤ if decide (dto_productId it = 1%Z) then 10 else 5)%Z)
            (items itemsAB_priced)) as Hp.
  { repeat constructor; simpl; lia. }
  destruct (Hamount (λ it, if decide (dto_productId it = 1%Z) then 10%Z else 5%Z)
              Hp eq_refl ltac:(discriminate)) as [Ha _].
  exact Ha.
Defined.

(** ** Calls one after the other *)

(** Case analysis on every decision in the goal and the hypotheses. *)
Ltac split_decisions :=
  repeat match goal with
         | |- context [decide ?P] => destruct (decide P)
         | H : context [decide ?P] |- _ => destruct (decide P)
         end.

Lemma count_matching_new f (db : gmap string OrderRecord) id r :
  db !! id = None →
  size (filter (where_status f) (<[id := r]> db)) =
    if decide (where_status f (id, r))
    then S (size (filter (where_status f) db))
    else size (filter (where_status f) db).
Proof.
  intros Hnone. rewrite map_filter_insert. destruct (decide _).
  - apply map_size_insert_None. by apply map_lookup_filter_None_2; left.
  - by rewrite delete_id.
Qed.

Lemma count_matching_moved f (db : gmap string OrderRecord) id r r' :
  db !! id = Some r →
  (size (filter (where_status f) (<[id := r']> db))
   + (if decide (where_status f (id, r)) then 1 else 0)
   = size (filter (where_status f) db)
     + (if decide (where_status f (id, r')) then 1 else 0))%nat.
Proof.
  intros Hr. rewrite map_filter_insert.
  assert (filter (where_status f) db !! id
          = if decide (where_status f (id, r)) then Some r else None) as Hold.
  { rewrite map_lookup_filter, Hr. simpl. destruct (decide _).
    - by rewrite option_guard_True.
    - by rewrite option_guard_False. }
  destruct (decide (where_status f (id, r'))).
  - rewrite map_size_insert, Hold. destruct (decide _); simpl; lia.
  - rewrite map_filter_delete, map_size_delete, Hold.
    destruct (decide _) as [Hy|]; simpl; [| lia].
    assert (size (filter (where_status f) db) ≠ 0); [| lia].
    intros Hz%map_size_empty_inv. rewrite Hz, lookup_empty in Hold. done.
Qed.

(** X7.  What [create] stores and returns, [findOne] returns: a [findOne] on
    the id of an order just created, against a catalog that answers the
    request as it answered [create], returns the response of [create]. *)
Theorem create_then_findOne env env' dto products w :
  validate_product env (map dto_productId (items dto)) = inr products →
  validate_product env' (map dto_productId (items dto)) = inr products →
  Forall (λ it, known products (dto_productId it)) (items dto) →
  ∃ o w',
    create env dto w = (inr o, w')
    ∧ (findOne env' (o_id (w_order o)) w').1 = inr o.
Proof.
  intros Hreply Hreply' Hall.
  pose proof (create_known env dto products w Hreply Hall) as Hrun. simpl in Hrun.
  eexists _, _. split; [exact Hrun |]. cbn [w_order scalars o_id].
  erewrite findOne_existing by (cbn [set_db orders]; apply lookup_insert_eq).
  cbn [fst new_record OrderItems ci_items].
  assert (map productId (map (priced products) (items dto))
          = map dto_productId (items dto)) as ->.
  { rewrite <- list_fmap_compose. done. }
  rewrite Hreply'. simpl. rewrite named_all_known; [done |].
  apply Forall_map. eapply Forall_impl; [exact Hall |]. by intros it Hk.
Qed.

Lemma create_then_findOne_example :
  ∃ o w',
    create envAB itemsAB w0 = (inr o, w')
    ∧ (findOne envAB (o_id (w_order o)) w').1 = inr o.
Proof.
  apply (create_then_findOne envAB envAB itemsAB catalogAB w0);
    [reflexivity | reflexivity | compute_done].
Defined.

(** X8.  A successful [create] shows in the listing as one more PENDING
    order: the [meta.total] of [findAll] grows by one without a filter and
    under the filter PENDING, and stays as it was under any other filter. *)
Theorem create_then_findAll env dto products w f p L :
  validate_product env (map dto_productId (items dto)) = inr products →
  Forall (λ it, known products (dto_productId it)) (items dto) →
  (1 ≤ p)%Z → (1 ≤ L)%Z →
  ∃ o w' pg pg',
    create env dto w = (inr o, w')
    ∧ findAll {| pg_page := p; pg_limit := L; pg_status := f |} w = (inr pg, w)
    ∧ findAll {| pg_page := p; pg_limit := L; pg_status := f |} w' = (inr pg', w')
    ∧ total (meta pg') =
        (if decide (f = None ∨ f = Some PENDING)
         then total (meta pg) + 1 else total (meta pg))%Z.
Proof.
  intros Hreply Hall Hp HL.
  pose proof (create_known env dto products w Hreply Hall) as Hrun. simpl in Hrun.
  eexists _, _, _, _. split; [exact Hrun |].
  split; [apply findAll_run; simpl; lia |].
  split; [apply findAll_run; simpl; lia |].
  cbn [meta total pg_status]. rewrite !length_matching. unfold count_matching.
  cbn [set_db orders requested].
  rewrite count_matching_new by apply fresh_string_fresh.
  destruct f as [s|]; cbn [where_status snd new_record status];
    split_decisions; try lia; exfalso; simpl in *; intuition congruence.
Qed.

Lemma create_then_findAll_example :
  ∃ o w' pg pg',
    create envAB itemsAB w5 = (inr o, w')
    ∧ findAll {| pg_page := 1; pg_limit := 2; pg_status := None |} w5 = (inr pg, w5)
    ∧ findAll {| pg_page := 1; pg_limit := 2; pg_status := None |} w' = (inr pg', w')
    ∧ total (meta pg') = (total (meta pg) + 1)%Z.
Proof.
  apply (create_then_findAll envAB itemsAB catalogAB w5 None 1 2);
    [reflexivity | compute_done | lia | lia].
Defined.

(** X15.  A change of status shows in the listing as one order moved: under
    the filter of the old status [meta.total] goes down by one, under the
    filter of the new status it goes up by one, and without a filter or
    under another status it is unchanged. *)
Theorem changeOrderStatus_then_findAll id st r w f p L :
  orders w !! id = Some r →
  status r ≠ st →
  (1 ≤ p)%Z → (1 ≤ L)%Z →
  ∃ o w' pg pg',
    changeOrderStatus {| cs_id := id; cs_status := st |} w = (inr o, w')
    ∧ findAll {| pg_page := p; pg_limit := L; pg_status := f |} w = (inr pg, w)
    ∧ findAll {| pg_page := p; pg_limit := L; pg_status := f |} w' = (inr pg', w')
    ∧ total (meta pg') =
        (total (meta pg)
         + (if decide (f = Some st) then 1 else 0)
         - (if decide (f = Some (status r)) then 1 else 0))%Z.
Proof.
  intros Hr Hne Hp HL.
  eexists _, _, _, _. split; [by apply changeOrderStatus_other |].
  split; [apply findAll_run; simpl; lia |].
  split; [apply findAll_run; simpl; lia |].
  cbn [meta total pg_status]. rewrite !length_matching. unfold count_matching.
  cbn [set_db orders].
  pose proof (count_matching_moved f (orders w) id r
                (apply_update (status_update st) r) Hr) as Hcount.
  destruct f as [s|];
    cbn [where_status snd apply_update status_update status u_status or_default]
      in Hcount;
    split_decisions; try lia; exfalso; simpl in *; intuition congruence.
Qed.

Lemma changeOrderStatus_then_findAll_example :
  ∃ o w' pg pg',
    changeOrderStatus {| cs_id := "order"; cs_status := CANCELLED |} w_created = (inr o, w')
    ∧ findAll {| pg_page := 1; pg_limit := 10; pg_status := Some PENDING |} w_created
      = (inr pg, w_created)
    ∧ findAll {| pg_page := 1; pg_limit := 10; pg_status := Some PENDING |} w'
      = (inr pg', w')
    ∧ total (meta pg') = (total (meta pg) + 0 - 1)%Z.
Proof.
  apply (changeOrderStatus_then_findAll "order" CANCELLED stored_AB w_created
           (Some PENDING) 1 10); [reflexivity | discriminate | lia | lia].
Defined.

(** ** More on reading one order *)

(** X9.  [findOne] only reads: it never changes the table, and it sends at
    most one request to the catalog, for the product ids of the stored
    items of the order, in their order. *)
Theorem findOne_reads_only env id w :
  orders (findOne env id w).2 = orders w
  ∧ (sent (findOne env id w).2 = sent w
     ∨ ∃ r, orders w !! id = Some r
            ∧ sent (findOne env id w).2 = sent w ++ [map productId (OrderItems r)]).
Proof.
  split; [apply findOne_orders |].
  destruct (orders w !! id) as [r|] eqn:Hr.
  - right. exists r. split; [done |]. by rewrite (findOne_existing env id r w Hr).
  - left. by rewrite findOne_missing.
Qed.

(** X10.  When the catalog call fails, [findOne] on a stored order fails with
    the very error of the rejection: it is not caught and not turned into
    an [RpcException] of the service, unlike in [create]. *)
Theorem findOne_catalog_rejection env id r e w :
  orders w !! id = Some r →
  validate_product env (map productId (OrderItems r)) = inl e →
  (findOne env id w).1 = inl e
  ∧ orders (findOne env id w).2 = orders w.
Proof.
  intros Hr Hreply. rewrite (findOne_existing env id r w Hr), Hreply. done.
Qed.

Lemma findOne_catalog_rejection_example :
  (findOne envDown "order" w_created).1 =
    inl (Rejected "Empty response. There are no subscribers listening to that message")
  ∧ orders (findOne envDown "order" w_created).2 = orders w_created.
Proof.
  apply (findOne_catalog_rejection envDown "order" stored_AB); reflexivity.
Defined.

(** ** More on changing the status *)

(** X11.  For an id that no stored order has, [changeOrderStatus] fails with
    a NOT_FOUND error and changes nothing. *)
Theorem changeOrderStatus_not_found dto w :
  orders w !! cs_id dto = None →
  ∃ m, changeOrderStatus dto w = (inl (RpcException NOT_FOUND m), w).
Proof. intros H. eexists. by apply changeOrderStatus_missing. Qed.

Lemma changeOrderStatus_not_found_example :
  ∃ m, changeOrderStatus {| cs_id := "no-such-order"; cs_status := PAID |} w_created
       = (inl (RpcException NOT_FOUND m), w_created).
Proof.
  apply (changeOrderStatus_not_found
           {| cs_id := "no-such-order"; cs_status := PAID |} w_created).
  reflexivity.
Defined.

Lemma status_update_back st r :
  apply_update (status_update (status r)) (apply_update (status_update st) r) = r.
Proof. by destruct r. Qed.

(** X12.  A change of status can be undone: changing a stored order to
    another status and then back to the one it had succeeds both times and
    leaves the table exactly as it was. *)
Theorem changeOrderStatus_and_back id st r w :
  orders w !! id = Some r →
  status r ≠ st →
  ∃ o1 wa o2 w2,
    changeOrderStatus {| cs_id := id; cs_status := st |} w = (inr o1, wa)
    ∧ changeOrderStatus {| cs_id := id; cs_status := status r |} wa = (inr o2, w2)
    ∧ o2 = scalars id r
    ∧ w2 = w.
Proof.
  intros Hr Hne.
  eexists _, _, _, _. split; [by apply changeOrderStatus_other |].
  split.
  { apply changeOrderStatus_other; [apply lookup_insert_eq | by simpl]. }
  rewrite status_update_back. split; [done |].
  destruct w as [db log]. unfold set_db. simpl in *. f_equal.
  rewrite insert_insert_eq. by apply insert_id.
Qed.

Lemma changeOrderStatus_and_back_example :
  ∃ o1 w' o2 w2,
    changeOrderStatus {| cs_id := "order"; cs_status := DELIVERED |} w_created = (inr o1, w')
    ∧ changeOrderStatus {| cs_id := "order"; cs_status := PENDING |} w' = (inr o2, w2)
    ∧ o2 = scalars "order" stored_AB
    ∧ w2 = w_created.
Proof.
  apply (changeOrderStatus_and_back "order" DELIVERED stored_AB w_created);
    [reflexivity | discriminate].
Defined.

(** X13.  [changeOrderStatus] is not idempotent: after a successful change,
    the same request again fails with BAD_REQUEST and changes nothing. *)
Theorem changeOrderStatus_repeated dto r w :
  orders w !! cs_id dto = Some r →
  status r ≠ cs_status dto →
  ∃ o w' m,
    changeOrderStatus dto w = (inr o, w')
    ∧ changeOrderStatus dto w' = (inl (RpcException BAD_REQUEST m), w').
Proof.
  intros Hr Hne. destruct dto as [id st]. simpl in *.
  eexists _, _, _. split; [by apply changeOrderStatus_other |].
  apply (changeOrderStatus_same id (apply_update (status_update st) r)).
  apply lookup_insert_eq.
Qed.

Lemma changeOrderStatus_repeated_example :
  ∃ o w' m,
    changeOrderStatus {| cs_id := "order"; cs_status := DELIVERED |} w_created = (inr o, w')
    ∧ changeOrderStatus {| cs_id := "order"; cs_status := DELIVERED |} w'
      = (inl (RpcException BAD_REQUEST m), w').
Proof.
  apply (changeOrderStatus_repeated
           {| cs_id := "order"; cs_status := DELIVERED |} stored_AB w_created);
    [reflexivity | discriminate].
Defined.

(** X14.  Whatever the request, [changeOrderStatus] sends nothing to the
    catalog, adds and removes no order, and leaves every order but the one
    named untouched; it fails exactly when the order is missing or already
    has the status, and then with an [RpcException]. *)
Theorem changeOrderStatus_frame dto w :
  sent (changeOrderStatus dto w).2 = sent w
  ∧ dom (orders (changeOrderStatus dto w).2) = dom (orders w)
  ∧ (∀ id, id ≠ cs_id dto →
       orders (changeOrderStatus dto w).2 !! id = orders w !! id)
  ∧ (∀ e, (changeOrderStatus dto w).1 = inl e →
       (changeOrderStatus dto w).2 = w
       ∧ ((orders w !! cs_id dto = None ∧ is_rpc NOT_FOUND e)
          ∨ (status <$> orders w !! cs_id dto = Some (cs_status dto)
             ∧ is_rpc BAD_REQUEST e))).
Proof.
  destruct dto as [id st]. cbn [cs_id cs_status].
  destruct (orders w !! id) as [r|] eqn:Hr.
  - destruct (decide (status r = st)) as [<-|Hne].
    + rewrite (changeOrderStatus_same id r w Hr). cbn [fst snd].
      split_and!; [done | done | done |].
      intros e [= <-]. split; [done |]. right. split; [done | by eexists].
    + rewrite (changeOrderStatus_other id st r w Hr Hne). cbn [fst snd set_db orders sent].
      split_and!; [done | | | done].
      * apply dom_insert_lookup_L. by eexists.
      * intros id' Hid'. by rewrite lookup_insert_ne.
  - rewrite changeOrderStatus_missing by done. cbn [fst snd cs_id].
    split_and!; [done | done | done |].
    intros e [= <-]. split; [done |]. left. split; [done | by eexists].
Qed.

(** ** More on confirming a payment *)

(** X16.  [paidOrder] does not check that the order exists: for an id that no
    stored order has, it fails with the error of the store, which is not an
    [RpcException] of the service (so neither NOT_FOUND nor BAD_REQUEST),
    and changes nothing. *)
Theorem paidOrder_unknown_order env dto w :
  orders w !! orderId dto = None →
  ∃ m, paidOrder env dto w = (inl (PrismaError m), w)
       ∧ ∀ code, ¬ is_rpc code (PrismaError m).
Proof.
  intros H. eexists. split; [by apply paidOrder_missing |].
  by intros code [m ?].
Qed.

Lemma paidOrder_unknown_order_example :
  ∃ m, paidOrder envAB payment1 w0 = (inl (PrismaError m), w0)
       ∧ ∀ code, ¬ is_rpc code (PrismaError m).
Proof. apply (paidOrder_unknown_order envAB payment1 w0). reflexivity. Defined.



(** X19.  Whatever the payload, [paidOrder] sends nothing to the catalog,
    adds and removes no order, leaves every order but the one named
    untouched, and leaves the items and the totals of that one as they
    were; when it fails nothing at all has changed. *)
Theorem paidOrder_frame env dto w :
  sent (paidOrder env dto w).2 = sent w
  ∧ dom (orders (paidOrder env dto w).2) = dom (orders w)
  ∧ (∀ id, id ≠ orderId dto →
       orders (paidOrder env dto w).2 !! id = orders w !! id)
  ∧ (∀ r, orders w !! orderId dto = Some r →
       ∃ r', orders (paidOrder env dto w).2 !! orderId dto = Some r'
             ∧ OrderItems r' = OrderItems r
             ∧ totalAmount r' = totalAmount r
             ∧ totalItems r' = totalItems r)
  ∧ (∀ e, (paidOrder env dto w).1 = inl e → (paidOrder env dto w).2 = w).
Proof.
  destruct (orders w !! orderId dto) as [r|] eqn:Hr.
  - rewrite (paidOrder_first env dto r w Hr). cbn [fst snd set_db orders sent].
    split_and!; [done | | | | done].
    + apply dom_insert_lookup_L. by eexists.
    + intros id Hid. by rewrite lookup_insert_ne.
    + intros r0 [= <-]. eexists. split; [apply lookup_insert_eq | done].
  - rewrite paidOrder_missing by done. cbn [fst snd].
    split_and!; [done | done | done | | done]. intros r0 [=].
Qed.

(** ** Asking for a payment session *)

(** X20.  The payment session asked for an order just created is for that
    order: [createPaymentSession] on the response of a successful [create]
    sends the id of the order, the currency usd and one item per item of
    the input, whose prices times quantities, added in double arithmetic
    from 0 and in their order, give the [totalAmount] of the order, and
    whose quantities give its [totalItems]; it returns what the payment
    service answers and changes nothing. *)
Theorem createPaymentSession_of_created {Session}
    (gateway : PaymentSessionDto → exn + Session) env dto products w :
  validate_product env (map dto_productId (items dto)) = inr products →
  Forall (λ it, known products (dto_productId it)) (items dto) →
  ∃ o w' payload,
    create env dto w = (inr o, w')
    ∧ createPaymentSession gateway o w' = (gateway payload, w')
    ∧ ps_orderId payload = o_id (w_order o)
    ∧ ps_currency payload = "usd"
    ∧ length (ps_items payload) = length (items dto)
    ∧ js_sum (λ i, js_mul (pi_price i) (pi_quantity i)) (ps_items payload)
      = o_totalAmount (w_order o)
    ∧ js_sum pi_quantity (ps_items payload) = o_totalItems (w_order o).
Proof.
  intros Hreply Hall.
  pose proof (create_known env dto products w Hreply Hall) as Hrun. simpl in Hrun.
  eexists _, _, _. split; [exact Hrun |].
  split; [reflexivity |].
  cbn [ps_orderId ps_currency ps_items w_order w_OrderItems scalars o_id
       o_totalAmount o_totalItems new_record totalAmount totalItems].
  split_and!; [done | done | by rewrite !length_map | |];
    rewrite !js_sum_map; reflexivity.
Qed.

Lemma createPaymentSession_of_created_example :
  ∃ o w' payload,
    create envAB itemsAB w0 = (inr o, w')
    ∧ createPaymentSession echo_gateway o w' = (inr payload, w')
    ∧ ps_orderId payload = o_id (w_order o)
    ∧ ps_currency payload = "usd"
    ∧ length (ps_items payload) = 2
    ∧ js_sum (λ i, js_mul (pi_price i) (pi_quantity i)) (ps_items payload)
      = o_totalAmount (w_order o)
    ∧ js_sum pi_quantity (ps_items payload) = o_totalItems (w_order o).
Proof.
  apply (createPaymentSession_of_created echo_gateway envAB itemsAB catalogAB w0);
    [reflexivity | compute_done].
Defined.

(** X21.  The payment session asked for an order read back is for the stored
    totals: in a reachable world, [createPaymentSession] on the response of
    a successful [findOne] sends items whose prices times quantities, added
    in double arithmetic from 0 and in their order, give the stored
    [totalAmount] of the order, with the names of the catalog reply of that
    read. *)
Theorem createPaymentSession_of_found {Session}
    (gateway : PaymentSessionDto → exn + Session) env id r products w :
  reachable w →
  orders w !! id = Some r →
  validate_product env (map productId (OrderItems r)) = inr products →
  Forall (λ it, known products (productId it)) (OrderItems r) →
  ∃ o w' payload,
    findOne env id w = (inr o, w')
    ∧ createPaymentSession gateway o w' = (gateway payload, w')
    ∧ ps_orderId payload = id
    ∧ js_sum (λ i, js_mul (pi_price i) (pi_quantity i)) (ps_items payload) = totalAmount r
    ∧ map pi_name (ps_items payload)
      = map (λ it, catalog_name products (productId it)) (OrderItems r).
Proof.
  intros Hrun Hr Hreply Hall.
  destruct (reachable_totals w id r Hrun Hr) as [Hamount _].
  rewrite (findOne_existing env id r w Hr), Hreply. simpl.
  rewrite named_all_known by done. simpl.
  eexists _, _, _. split; [reflexivity |]. split; [reflexivity |].
  cbn [ps_orderId ps_items w_order w_OrderItems scalars o_id].
  split_and!; [done | | ].
  - rewrite Hamount, !js_sum_map. reflexivity.
  - rewrite <- !list_fmap_compose. done.
Qed.

Lemma createPaymentSession_of_found_example :
  ∃ o w' payload,
    findOne envRenamed "order" w_paid = (inr o, w')
    ∧ createPaymentSession echo_gateway o w' = (inr payload, w')
    ∧ ps_orderId payload = "order"
    ∧ js_sum (λ i, js_mul (pi_price i) (pi_quantity i)) (ps_items payload) = num 25
    ∧ map pi_name (ps_items payload) = ["A (new)"; "B (new)"].
Proof.
  refine (createPaymentSession_of_found echo_gateway envRenamed "order"
            (apply_update (paid_update envAB payment1) stored_AB)
            [ {| p_id := 2; p_price := num 7; p_name := "B (new)" |};
              {| p_id := 1; p_price := num 12; p_name := "A (new)" |} ]
            w_paid w_paid_reachable eq_refl eq_refl _).
  compute_done.
Defined.

(** ** More on listing orders *)

Lemma chunks_cover {A} (L : nat) (l : list A) n :
  length l ≤ n * L →
  concat ((λ k, take L (drop (k * L) l)) <$> seq 0 n) = l.
Proof.
  revert l. induction n as [|n IH]; intros l Hlen.
  - simpl in *. destruct l; [done | simpl in Hlen; lia].
  - cbn [seq fmap list_fmap concat]. rewrite <- fmap_S_seq, <- list_fmap_compose.
    simpl. rewrite drop_0.
    rewrite (list_fmap_ext _ (λ k, take L (drop (k * L) (drop L l))) (seq 0 n)).
    + rewrite IH; [apply take_drop |]. rewrite length_drop. lia.
    + intros i k _. simpl. rewrite drop_drop. done.
Qed.

Lemma concat_fmap_fmap {A B} (g : A → B) (ls : list (list A)) :
  concat ((λ l : list A, g <$> l) <$> ls) = g <$> concat ls.
Proof.
  induction ls as [|l ls IH]; [done |].
  cbn [fmap list_fmap concat]. rewrite fmap_app. f_equal. exact IH.
Qed.

Lemma page_data_run f L p w :
  (1 ≤ p)%Z → (1 ≤ L)%Z →
  page_data f L p w =
    (λ kr, scalars kr.1 kr.2)
      <$> take (Z.to_nat L) (drop (Z.to_nat (p - 1) * Z.to_nat L) (matching f w)).
Proof.
  intros Hp HL. unfold page_data. rewrite findAll_run by (simpl; lia).
  cbn [fst data pg_page pg_limit pg_status].
  replace (Z.to_nat ((p - 1) * L)) with (Z.to_nat (p - 1) * Z.to_nat L) by nia.
  done.
Qed.

(** X22.  The pages of [findAll] cover the matching orders: for a page size
    L >= 1, the [data] of the pages 1, 2, ..., [lastPage], one after the
    other, are all the stored orders that match the filter, each once. *)
Theorem findAll_pages_cover f L w :
  (1 ≤ L)%Z →
  concat ((λ p, page_data f L p w)
            <$> seqZ 1 (ceil_div (Z.of_nat (count_matching f w)) L))
  = (λ kr, scalars kr.1 kr.2) <$> matching f w.
Proof.
  intros HL. unfold seqZ. rewrite <- list_fmap_compose.
  pose proof (ceil_div_spec (Z.of_nat (count_matching f w)) L ltac:(lia)) as [_ Hup].
  set (K := ceil_div (Z.of_nat (count_matching f w)) L) in *.
  rewrite (list_fmap_ext _
             ((λ l : list (string * OrderRecord), (λ kr, scalars kr.1 kr.2) <$> l)
                ∘ (λ k, take (Z.to_nat L) (drop (k * Z.to_nat L) (matching f w))))
             (seq 0 (Z.to_nat K))).
  - rewrite list_fmap_compose, concat_fmap_fmap. f_equal.
    apply chunks_cover. rewrite length_matching. nia.
  - intros i k _. simpl. rewrite page_data_run by lia.
    replace (Z.to_nat (Z.of_nat k + 1 - 1)) with k by lia. done.
Qed.

Lemma findAll_pages_cover_example :
  concat ((λ p, page_data None 2 p w5)
            <$> seqZ 1 (ceil_div (Z.of_nat (count_matching None w5)) 2))
  = (λ kr, scalars kr.1 kr.2) <$> matching None w5.
Proof. apply (findAll_pages_cover None 2 w5). lia. Defined.

(** X23.  A page of [findAll] is empty exactly when it lies beyond
    [meta.lastPage]: for p >= 1 and L >= 1, every page up to the last one
    has at least one order and every page after it has none. *)
Theorem findAll_empty_page dto w :
  (1 ≤ pg_page dto)%Z →
  (1 ≤ pg_limit dto)%Z →
  ∃ pg,
    findAll dto w = (inr pg, w)
    ∧ (data pg = [] ↔ (lastPage (meta pg) < pg_page dto)%Z).
Proof.
  intros Hp HL. eexists. split; [apply findAll_run; lia |].
  cbn [data meta lastPage].
  pose proof (ceil_div_spec (Z.of_nat (length (matching (pg_status dto) w)))
                (pg_limit dto) ltac:(lia)) as [Hlow Hup].
  set (K := ceil_div _ _) in *. set (l := matching (pg_status dto) w) in *.
  split.
  - intros Hnil%fmap_nil_inv. apply take_nil_inv in Hnil as [Hz|Hd]; [lia |].
    apply drop_nil_inv in Hd. nia.
  - intros Hlt. rewrite drop_ge by nia. by rewrite take_nil.
Qed.

Lemma findAll_empty_page_example :
  ∃ pg,
    findAll {| pg_page := 4; pg_limit := 2; pg_status := None |} w5 = (inr pg, w5)
    ∧ lastPage (meta pg) = 3%Z
    ∧ data pg = [].
Proof.
  destruct (findAll_empty_page
              {| pg_page := 4; pg_limit := 2; pg_status := None |} w5)
    as (pg & Hrun & Hempty); [simpl; lia | simpl; lia |].
  exists pg. split; [exact Hrun |].
  assert (lastPage (meta pg) = 3%Z) as Hlast.
  { change (findAll {| pg_page := 4; pg_limit := 2; pg_status := None |} w5)
      with (inr (A:=exn) {| data := []; meta := {| total := 5; page := 4; lastPage := 3 |} |},
            w5) in Hrun.
    by injection Hrun as <-. }
  split; [exact Hlast |]. apply Hempty. rewrite Hlast. simpl. lia.
Defined.

(** X24.  Every order [findAll] returns is a stored order, with the stored
    scalar fields, and has the status of the filter when there is one; no
    order is returned twice on a page. *)
Theorem findAll_returns_stored dto w :
  (1 ≤ pg_page dto)%Z →
  (1 ≤ pg_limit dto)%Z →
  ∃ pg,
    findAll dto w = (inr pg, w)
    ∧ NoDup (o_id <$> data pg)
    ∧ ∀ o, o ∈ data pg →
        (∃ r, orders w !! o_id o = Some r ∧ o = scalars (o_id o) r)
        ∧ ∀ s, pg_status dto = Some s → o_status o = s.
Proof.
  intros Hp HL. eexists. split; [apply findAll_run; lia |].
  cbn [data].
  set (rows := take _ (drop _ _)).
  assert (rows `sublist_of` matching (pg_status dto) w) as Hsub.
  { etrans; [apply sublist_take | apply sublist_drop]. }
  split.
  - rewrite <- list_fmap_compose.
    eapply sublist_NoDup; [apply (NoDup_fst_map_to_list (orders w)) |].
    etrans; [apply fmap_sublist, Hsub |].
    apply fmap_sublist, sublist_filter.
  - intros o (kr & -> & Hin)%list_elem_of_fmap.
    apply (elem_of_sublist _ _ _ Hin) in Hsub as Hin'. clear Hin. rename Hin' into Hin.
    apply list_elem_of_filter in Hin as [Hmatch Hin].
    destruct kr as [k r]. apply elem_of_map_to_list in Hin. simpl.
    split; [by exists r |].
    intros s Hs. rewrite Hs in Hmatch. exact Hmatch.
Qed.

Lemma findAll_returns_stored_example :
  ∃ pg,
    findAll {| pg_page := 2; pg_limit := 2; pg_status := Some PENDING |} w5
    = (inr pg, w5)
    ∧ NoDup (o_id <$> data pg)
    ∧ ∀ o, o ∈ data pg → o_status o = PENDING.
Proof.
  destruct (findAll_returns_stored
              {| pg_page := 2; pg_limit := 2; pg_status := Some PENDING |} w5)
    as (pg & Hrun & Hnd & Hall); [simpl; lia | simpl; lia |].
  exists pg. split_and!; [exact Hrun | exact Hnd |].
  intros o Ho. exact (proj2 (Hall o Ho) PENDING eq_refl).
Defined.
